(** * The Python/C++ boundary of JaroWinkler: [src/cython/common.hpp]

    A shallow embedding of the boundary header and the properties of its
    error bridge, its width dispatch, its string wrapper and its scorer
    entry points.

    C++ exceptions, the interpreter's error indicator, the free store and
    the calls made into the host are threaded through a small monad [M].
    Pointers and integers are [Z]; a [size_t] is a [Z] reduced modulo
    [2^64]. *)

From Stdlib Require Import ZArith String List Floats Lia.
From stdpp Require Import base option gmap.

Local Open Scope string_scope.
Local Open Scope Z_scope.

(** ** C++ exceptions *)

(** The classes of the [std::exception] hierarchy that the header names or
    that can reach it, and [PythonTypeError], which the header declares. *)
Inductive ExnClass :=
  | std_exception
  | bad_alloc
  | bad_array_new_length
  | bad_cast
  | bad_typeid
  | PythonTypeError
  | bad_exception
  | logic_error
  | domain_error
  | invalid_argument
  | length_error
  | out_of_range
  | runtime_error
  | range_error
  | overflow_error
  | underflow_error
  | system_error
  | ios_failure.

Global Instance ExnClass_eq_dec : EqDecision ExnClass.
Proof. solve_decision. Defined.

(** The direct base class ([class PythonTypeError: public std::bad_typeid]
    for the one class of the header). *)
Definition base_class (c : ExnClass) : option ExnClass :=
  match c with
  | std_exception => None
  | bad_alloc | bad_cast | bad_typeid | bad_exception
  | logic_error | runtime_error => Some std_exception
  | bad_array_new_length => Some bad_alloc
  | PythonTypeError => Some bad_typeid
  | domain_error | invalid_argument | length_error | out_of_range =>
      Some logic_error
  | range_error | overflow_error | underflow_error | system_error =>
      Some runtime_error
  | ios_failure => Some system_error
  end.

Fixpoint derives_within (fuel : nat) (c d : ExnClass) : bool :=
  bool_decide (c = d) ||
  match fuel, base_class c with
  | S fuel', Some b => derives_within fuel' b d
  | _, _ => false
  end.

(** [derives_from c d]: [c] is [d] or one of its descendants (no chain of
    bases is longer than three). *)
Definition derives_from (c d : ExnClass) : bool := derives_within 3 c d.

(** A thrown object: an instance of a class of the hierarchy carrying the
    text its [what()] returns, or an object of a type outside the hierarchy
    (as in [throw 42;]). *)
Inductive CppExn :=
  | StdExn (c : ExnClass) (what : string)
  | Foreign (tag : Z).

(** A handler of a [try] block: [catch (const C&)] or [catch (...)]. *)
Inductive catch_clause :=
  | catch_class (c : ExnClass)
  | catch_all.

(** A handler for a class takes the objects of that class and of the
    classes derived from it; [catch (...)] takes every thrown object. *)
Definition clause_matches (cl : catch_clause) (e : CppExn) : bool :=
  match cl, e with
  | catch_all, _ => true
  | catch_class d, StdExn c _ => derives_from c d
  | catch_class _, Foreign _ => false
  end.

(** [exn.what()] *)
Definition what (e : CppExn) : string :=
  match e with
  | StdExn _ msg => msg
  | Foreign _ => ""
  end.

(** How a call ends: it returns, it leaves by an exception, or the process
    stops ([std::terminate], or behaviour the language leaves undefined). *)
Inductive crash := std_terminate | undefined_behaviour.

Inductive outcome (A : Type) :=
  | Ret (a : A)
  | Throw (e : CppExn)
  | Crash (c : crash).
Arguments Ret {A} a.
Arguments Throw {A} e.
Arguments Crash {A} c.

(** ** The host *)

(** The host exception types the header installs. *)
Inductive PyExc :=
  | PyExc_MemoryError
  | PyExc_TypeError
  | PyExc_ValueError
  | PyExc_IOError
  | PyExc_IndexError
  | PyExc_OverflowError
  | PyExc_ArithmeticError
  | PyExc_RuntimeError.

Global Instance PyExc_eq_dec : EqDecision PyExc.
Proof. solve_decision. Defined.

(** [RF_String] is declared in [rapidfuzz_capi.h].  The header reads its
    fields [dtor], [kind], [data] and [length], and its braced initialisers
    give five fields, a release callback first and a pointer that is
    always null last.  A null pointer is [0]. *)
Record RF_String := mkRF_String {
  dtor : Z;
  kind : Z;
  data : Z;
  length : Z;
  context : Z
}.

Global Instance RF_String_eq_dec : EqDecision RF_String.
Proof. solve_decision. Defined.

(** The element types of [LIST_OF_CASES] and a pointer to elements of one
    of them: [p + n] moves by [n] elements. *)
Inductive elem_type := uint8_t | uint16_t | uint32_t | uint64_t.

Definition sizeof (ty : elem_type) : Z :=
  match ty with
  | uint8_t => 1
  | uint16_t => 2
  | uint32_t => 4
  | uint64_t => 8
  end.

Record typed_ptr := mkPtr {
  elem : elem_type;
  addr : Z
}.

Definition ptr_add (p : typed_ptr) (n : Z) : typed_ptr :=
  mkPtr (elem p) (addr p + n * sizeof (elem p)).

(** [last - first], the number of elements of the range. *)
Definition ptr_diff (last first : typed_ptr) : Z :=
  (addr last - addr first) / sizeof (elem first).

(** [static_cast<std::size_t>] on a 64-bit target. *)
Definition to_size_t (n : Z) : Z := n mod 2 ^ 64.

(** [PYTHON_VERSION(major, minor, micro)].  The header uses it at
    [(3, 10, 0)]; the shifts of the macro are those of [int], which these
    are for a major number from 0 to 127 and a minor and a micro number
    from 0 to 255. *)
Definition PYTHON_VERSION (major minor micro : Z) : Z :=
  Z.lor (Z.lor (Z.shiftl major 24) (Z.shiftl minor 16)) (Z.shiftl micro 8).

(** A host value as the header looks at it: a bytes object with the address
    and size of its buffer, a text object with its storage kind, the
    address of its code units and their number, or any other object. *)
Inductive PyObject :=
  | PyBytes (ob_sval : Z) (ob_size : Z)
  | PyUnicode (ukind : Z) (udata : Z) (ulength : Z)
  | PyOther.

Definition PyBytes_Check (o : PyObject) : bool :=
  match o with PyBytes _ _ => true | _ => false end.

Definition PyUnicode_Check (o : PyObject) : bool :=
  match o with PyUnicode _ _ _ => true | _ => false end.

(** The storage kinds of the host's text objects ([enum PyUnicode_Kind]). *)
Definition PyUnicode_1BYTE_KIND : Z := 1.
Definition PyUnicode_2BYTE_KIND : Z := 2.

(** Calls into the host or the C runtime that a caller can observe. *)
Inductive Event :=
  | EvGILEnsure
  | EvGILRelease
  | EvDtor (fn : Z) (arg : RF_String)
  | EvIncref (obj : Z)
  | EvDecref (obj : Z)
  | EvFree (ptr : Z).

(** [struct RF_StringWrapper { RF_String string; PyObject* obj; }] *)
Record RF_StringWrapper := mkWrapper {
  string : RF_String;
  obj : Z
}.

(** The entry points a scorer context carries: instances of the two
    function templates of the header, one per element type. *)
Inductive fn_ptr :=
  | fn_scorer_func_wrapper_f64 (ty : elem_type)
  | fn_scorer_deinit (ty : elem_type).

(** [RF_ScorerFunc], declared in [rapidfuzz_capi.h]: the header sets its
    fields [context], [call.f64] and [dtor]. *)
Record RF_ScorerFunc := mkScorerFunc {
  scorer_context : Z;
  scorer_call_f64 : option fn_ptr;
  scorer_dtor : option fn_ptr
}.

Global Instance Event_eq_dec : EqDecision Event.
Proof. solve_decision. Defined.

(** The operations that act on live wrappers after their construction from
    a string: default and move construction, move assignment, [swap] and
    destruction. *)
Inductive wrapper_op :=
  | op_default (this : Z)
  | op_move (this other : Z)
  | op_move_assign (this other : Z)
  | op_swap (first second : Z)
  | op_destroy (this : Z).

(** How often the release callback of the string [s] was called. *)
Definition releases (s : RF_String) (tr : list Event) : nat :=
  count_occ Event_eq_dec tr (EvDtor (dtor s) s).

(** The host error categories of the specification and its mapping of the
    internal failures (its section 7), in its words. *)
Inductive HostErrorCategory :=
  | out_of_memory
  | type_mismatch
  | value_domain
  | io_failure
  | index_out_of_range
  | arithmetic_range
  | generic_runtime
  | unknown.

Definition spec_category (e : CppExn) : HostErrorCategory :=
  match e with
  | StdExn c _ =>
      match c with
      | bad_alloc | bad_array_new_length => out_of_memory
      | bad_cast | bad_typeid | PythonTypeError => type_mismatch
      | invalid_argument | domain_error => value_domain
      | ios_failure => io_failure
      | out_of_range => index_out_of_range
      | overflow_error | underflow_error | range_error => arithmetic_range
      | std_exception | bad_exception | logic_error | length_error
      | runtime_error | system_error => generic_runtime
      end
  | Foreign _ => unknown
  end.

(** The host error the bridge installs for an exception, class by class. *)
Definition host_error_of (e : CppExn) : PyExc * String.string :=
  match e with
  | StdExn c msg =>
      (match c with
       | bad_alloc | bad_array_new_length => PyExc_MemoryError
       | bad_cast | bad_typeid | PythonTypeError => PyExc_TypeError
       | invalid_argument | domain_error => PyExc_ValueError
       | ios_failure => PyExc_IOError
       | out_of_range => PyExc_IndexError
       | overflow_error => PyExc_OverflowError
       | underflow_error | range_error => PyExc_ArithmeticError
       | std_exception | bad_exception | logic_error | length_error
       | runtime_error | system_error => PyExc_RuntimeError
       end, msg)
  | Foreign _ => (PyExc_RuntimeError, "Unknown exception")
  end.

(** The category a host exception type stands for ([OverflowError] is an
    arithmetic error of the host). *)
Definition category_of_type (ty : PyExc) : HostErrorCategory :=
  match ty with
  | PyExc_MemoryError => out_of_memory
  | PyExc_TypeError => type_mismatch
  | PyExc_ValueError => value_domain
  | PyExc_IOError => io_failure
  | PyExc_IndexError => index_out_of_range
  | PyExc_OverflowError | PyExc_ArithmeticError => arithmetic_range
  | PyExc_RuntimeError => generic_runtime
  end.


(** The address of the elements of a host string. *)
Definition buffer_of (py : PyObject) : Z :=
  match py with
  | PyBytes p _ => p
  | PyUnicode _ p _ => p
  | PyOther => 0
  end.



(** The calls a wrapper makes when it gives up what it holds: the release
    callback, when there is one, then the owner's reference, when there is
    an owner. *)
Definition release_events (x : RF_StringWrapper) : list Event :=
  (if dtor (string x) =? 0 then []
   else [EvDtor (dtor (string x)) (string x)]) ++
  (if obj x =? 0 then [] else [EvDecref (obj x)]).

Section Boundary.

(** The objects [new] puts on the free store: instances of the cached
    scorer of [jaro_winkler.hpp]. *)
Context {Obj : Type}.

(** What the header reads and writes outside its arguments: the host's
    error indicator, the exceptions being handled (innermost first, what a
    bare [throw;] rethrows), the calls made so far, the free store with the
    number of allocations it can still serve, and the live wrappers by
    address. *)
Record World := mkWorld {
  py_err : option (PyExc * String.string);
  handled : list CppExn;
  trace : list Event;
  heap : gmap Z Obj;
  free_store : nat;
  wrappers : gmap Z RF_StringWrapper
}.

Definition set_py_err (e : option (PyExc * String.string)) (w : World) : World :=
  mkWorld e (handled w) (trace w) (heap w) (free_store w) (wrappers w).

Definition set_handled (hs : list CppExn) (w : World) : World :=
  mkWorld (py_err w) hs (trace w) (heap w) (free_store w) (wrappers w).

Definition log (ev : Event) (w : World) : World :=
  mkWorld (py_err w) (handled w) (trace w ++ [ev]) (heap w) (free_store w)
          (wrappers w).

Definition log_all (evs : list Event) (w : World) : World :=
  mkWorld (py_err w) (handled w) (trace w ++ evs) (heap w) (free_store w)
          (wrappers w).

Definition set_heap (h : gmap Z Obj) (n : nat) (w : World) : World :=
  mkWorld (py_err w) (handled w) (trace w) h n (wrappers w).

Definition set_wrappers (ws : gmap Z RF_StringWrapper) (w : World) : World :=
  mkWorld (py_err w) (handled w) (trace w) (heap w) (free_store w) ws.

(** ** The monad *)

Definition M (A : Type) : Type := World -> outcome A * World.

Definition ret {A} (a : A) : M A := fun w => (Ret a, w).

Definition bind {A B} (m : M A) (k : A -> M B) : M B :=
  fun w =>
    match m w with
    | (Ret a, w') => k a w'
    | (Throw e, w') => (Throw e, w')
    | (Crash c, w') => (Crash c, w')
    end.

Notation "x <- m ;; k" := (bind m (fun x => k))
  (at level 100, m at next level, right associativity).
Notation "m ;; k" := (bind m (fun _ => k))
  (at level 100, right associativity).

Definition throw {A} (e : CppExn) : M A := fun w => (Throw e, w).

Definition abort {A} (c : crash) : M A := fun w => (Crash c, w).

Definition emit (ev : Event) : M unit := fun w => (Ret tt, log ev w).

(** A bare [throw;]: rethrows the exception being handled; with none,
    [std::terminate] is called. *)
Definition rethrow {A} : M A :=
  fun w =>
    match handled w with
    | e :: _ => (Throw e, w)
    | [] => (Crash std_terminate, w)
    end.

Definition handler (A : Type) : Type := catch_clause * (CppExn -> M A).

(** The handlers of a [try] block are tried in the order they are
    written. *)
Fixpoint select_handler {A} (hs : list (handler A)) (e : CppExn)
  : option (M A) :=
  match hs with
  | [] => None
  | (cl, h) :: hs' =>
      if clause_matches cl e then Some (h e) else select_handler hs' e
  end.

(** [try { body } catch ... ]: the selected handler runs with the caught
    exception as the one being handled; an exception no handler takes
    goes on. *)
Definition try_catch {A} (body : M A) (hs : list (handler A)) : M A :=
  fun w =>
    match body w with
    | (Throw e, w') =>
        match select_handler hs e with
        | Some h =>
            let (r, w'') := h (set_handled (e :: handled w') w') in
            (r, set_handled (tail (handled w'')) w'')
        | None => (Throw e, w')
        end
    | r => r
    end.

(** ** The host's error indicator and lock *)

Definition PyErr_Occurred : M bool :=
  fun w => (Ret (bool_decide (py_err w <> None)), w).

Definition PyErr_SetString (ty : PyExc) (msg : String.string) : M unit :=
  fun w => (Ret tt, set_py_err (Some (ty, msg)) w).

Definition PyGILState_Ensure : M unit := emit EvGILEnsure.
Definition PyGILState_Release : M unit := emit EvGILRelease.

(** ** [CppExn2PyErr] *)

(** The handlers of [CppExn2PyErr], in the order they are written. *)
Definition bridge_handlers : list (handler unit) :=
  [ (catch_class bad_alloc,
      fun exn => PyErr_SetString PyExc_MemoryError (what exn));
    (catch_class bad_cast,
      fun exn => PyErr_SetString PyExc_TypeError (what exn));
    (catch_class bad_typeid,
      fun exn => PyErr_SetString PyExc_TypeError (what exn));
    (catch_class domain_error,
      fun exn => PyErr_SetString PyExc_ValueError (what exn));
    (catch_class invalid_argument,
      fun exn => PyErr_SetString PyExc_ValueError (what exn));
    (catch_class ios_failure,
      fun exn => PyErr_SetString PyExc_IOError (what exn));
    (catch_class out_of_range,
      fun exn => PyErr_SetString PyExc_IndexError (what exn));
    (catch_class overflow_error,
      fun exn => PyErr_SetString PyExc_OverflowError (what exn));
    (catch_class range_error,
      fun exn => PyErr_SetString PyExc_ArithmeticError (what exn));
    (catch_class underflow_error,
      fun exn => PyErr_SetString PyExc_ArithmeticError (what exn));
    (catch_class std_exception,
      fun exn => PyErr_SetString PyExc_RuntimeError (what exn));
    (catch_all,
      fun _ => PyErr_SetString PyExc_RuntimeError "Unknown exception") ].

Definition CppExn2PyErr : M unit :=
  try_catch
    (occurred <- PyErr_Occurred ;;
     if (occurred : bool) then ret tt else rethrow)
    bridge_handlers.

(** ** [visit] and [visitor] *)

(** The enumerators of [RF_StringType] are declared in [rapidfuzz_capi.h];
    as the labels of one [switch] they are pairwise different. *)
Variables RF_UINT8 RF_UINT16 RF_UINT32 RF_UINT64 : Z.
Hypothesis RF_StringType_distinct :
  NoDup [RF_UINT8; RF_UINT16; RF_UINT32; RF_UINT64].

Definition tag_of (ty : elem_type) : Z :=
  match ty with
  | uint8_t => RF_UINT8
  | uint16_t => RF_UINT16
  | uint32_t => RF_UINT32
  | uint64_t => RF_UINT64
  end.

(** One [X_ENUM(kind, type)] case of the [switch]. *)
Definition visit_case {R Args} (ty : elem_type) (str : RF_String)
    (f : typed_ptr -> typed_ptr -> Args -> M R) (args : Args) : M R :=
  let data := mkPtr ty (data str) in
  f data (ptr_add data (length str)) args.

(** The extra arguments [args...] are one value of type [Args]. *)
Definition visit {R Args} (str : RF_String)
    (f : typed_ptr -> typed_ptr -> Args -> M R) (args : Args) : M R :=
  if kind str =? RF_UINT8 then visit_case uint8_t str f args
  else if kind str =? RF_UINT16 then visit_case uint16_t str f args
  else if kind str =? RF_UINT32 then visit_case uint32_t str f args
  else if kind str =? RF_UINT64 then visit_case uint64_t str f args
  else throw (StdExn logic_error "Invalid string type").

Definition visitor {R Args} (str1 str2 : RF_String)
    (f : typed_ptr -> typed_ptr -> typed_ptr * typed_ptr * Args -> M R)
    (args : Args) : M R :=
  visit str2
    (fun first last (_ : unit) => visit str1 f (first, last, args))
    tt.

(** ** Host strings *)

(** The version of the host the header is compiled for, and the host's
    [PyUnicode_READY] (0 when the text object is ready, non-zero with the
    host's error set otherwise). *)
Variable PY_VERSION_HEX : Z.
Variable PyUnicode_READY : PyObject -> M Z.

Definition PyUnicode_KIND (o : PyObject) : Z :=
  match o with PyUnicode k _ _ => k | _ => 0 end.
Definition PyUnicode_DATA (o : PyObject) : Z :=
  match o with PyUnicode _ d _ => d | _ => 0 end.
Definition PyUnicode_GET_LENGTH (o : PyObject) : Z :=
  match o with PyUnicode _ _ n => n | _ => 0 end.
Definition PyBytes_AS_STRING (o : PyObject) : Z :=
  match o with PyBytes d _ => d | _ => 0 end.
Definition PyBytes_GET_SIZE (o : PyObject) : Z :=
  match o with PyBytes _ n => n | _ => 0 end.

(** The block under [#if PY_VERSION_HEX < PYTHON_VERSION(3, 10, 0)]. *)
Definition ready_or_throw (py_str : PyObject) : M unit :=
  if PY_VERSION_HEX <? PYTHON_VERSION 3 10 0 then
    r <- PyUnicode_READY py_str ;;
    if r =? 0 then ret tt else throw (StdExn runtime_error "")
  else ret tt.

Definition is_valid_string (py_str : PyObject) : M bool :=
  if PyBytes_Check py_str then ret true
  else if PyUnicode_Check py_str then ready_or_throw py_str ;; ret true
  else ret false.

Definition validate_string (py_str : PyObject) (err : String.string) : M unit :=
  if PyBytes_Check py_str then ret tt
  else if PyUnicode_Check py_str then ready_or_throw py_str ;; ret tt
  else throw (StdExn PythonTypeError err).

(** The text accessors are macros over the layout of a text object: on an
    object that is neither bytes nor text their result is not defined. *)
Definition convert_string (py_str : PyObject) : M RF_String :=
  if PyBytes_Check py_str then
    ret (mkRF_String 0 RF_UINT8 (PyBytes_AS_STRING py_str)
           (to_size_t (PyBytes_GET_SIZE py_str)) 0)
  else if PyUnicode_Check py_str then
    let kind :=
      if PyUnicode_KIND py_str =? PyUnicode_1BYTE_KIND then RF_UINT8
      else if PyUnicode_KIND py_str =? PyUnicode_2BYTE_KIND then RF_UINT16
      else RF_UINT32 in
    ret (mkRF_String 0 kind (PyUnicode_DATA py_str)
           (to_size_t (PyUnicode_GET_LENGTH py_str)) 0)
  else abort undefined_behaviour.

(** ** [RF_StringWrapper] *)

(** [{nullptr, (RF_StringType)0, nullptr, 0, nullptr}] and the wrapper the
    default constructor makes. *)
Definition null_string : RF_String := mkRF_String 0 0 0 0 0.
Definition null_wrapper : RF_StringWrapper := mkWrapper null_string 0.

Definition Py_XINCREF (o : Z) : M unit :=
  if o =? 0 then ret tt else emit (EvIncref o).

Definition Py_XDECREF (o : Z) : M unit :=
  if o =? 0 then ret tt else emit (EvDecref o).

(** [if (string.dtor) { string.dtor(&string); }]: the callback belongs to
    the producer of the string; its call is recorded. *)
Definition call_dtor (s : RF_String) : M unit :=
  if dtor s =? 0 then ret tt else emit (EvDtor (dtor s) s).

(** Wrappers are read and written through their address; an address with
    no live wrapper cannot be used. *)
Definition load (this : Z) : M RF_StringWrapper :=
  fun w =>
    match wrappers w !! this with
    | Some x => (Ret x, w)
    | None => (Crash undefined_behaviour, w)
    end.

Definition store (this : Z) (x : RF_StringWrapper) : M unit :=
  fun w =>
    match wrappers w !! this with
    | Some _ => (Ret tt, set_wrappers (<[this := x]> (wrappers w)) w)
    | None => (Crash undefined_behaviour, w)
    end.

Definition get_string (this : Z) : M RF_String :=
  x <- load this ;; ret (string x).
Definition get_obj (this : Z) : M Z :=
  x <- load this ;; ret (obj x).
Definition set_string (this : Z) (s : RF_String) : M unit :=
  x <- load this ;; store this (mkWrapper s (obj x)).
Definition set_obj (this : Z) (o : Z) : M unit :=
  x <- load this ;; store this (mkWrapper (string x) o).

(** A constructor initialises storage that holds no live object. *)
Definition construct (this : Z) (x : RF_StringWrapper) : M unit :=
  fun w =>
    match wrappers w !! this with
    | None => (Ret tt, set_wrappers (<[this := x]> (wrappers w)) w)
    | Some _ => (Crash undefined_behaviour, w)
    end.

(** The end of the destructor: the object is gone. *)
Definition destruct_end (this : Z) : M unit :=
  fun w =>
    match wrappers w !! this with
    | Some _ => (Ret tt, set_wrappers (delete this (wrappers w)) w)
    | None => (Crash undefined_behaviour, w)
    end.

(** [RF_StringWrapper()] *)
Definition RF_StringWrapper_default (this : Z) : M unit :=
  construct this null_wrapper.

(** [RF_StringWrapper(RF_String string_)] *)
Definition RF_StringWrapper_borrowed (this : Z) (string_ : RF_String) : M unit :=
  construct this (mkWrapper string_ 0).

(** [RF_StringWrapper(RF_String string_, PyObject* o)] *)
Definition RF_StringWrapper_owned (this : Z) (string_ : RF_String) (o : Z)
  : M unit :=
  construct this (mkWrapper string_ o) ;;
  Py_XINCREF o.

(** [swap(first, second)], one [std::swap] per field. *)
Definition swap (first second : Z) : M unit :=
  tmp <- get_string first ;;
  s2 <- get_string second ;;
  set_string first s2 ;;
  set_string second tmp ;;
  tmp_obj <- get_obj first ;;
  o2 <- get_obj second ;;
  set_obj first o2 ;;
  set_obj second tmp_obj.

(** [RF_StringWrapper(RF_StringWrapper&& other)] *)
Definition RF_StringWrapper_move (this other : Z) : M unit :=
  RF_StringWrapper_default this ;;
  swap this other.

(** [operator=(RF_StringWrapper&& other)] *)
Definition move_assign (this other : Z) : M unit :=
  if bool_decide (other <> this) then
    s <- get_string this ;;
    call_dtor s ;;
    o <- get_obj this ;;
    Py_XDECREF o ;;
    os <- get_string other ;;
    set_string this os ;;
    oo <- get_obj other ;;
    set_obj this oo ;;
    set_string other null_string ;;
    set_obj other 0
  else ret tt.

(** [~RF_StringWrapper()] *)
Definition RF_StringWrapper_destroy (this : Z) : M unit :=
  s <- get_string this ;;
  call_dtor s ;;
  o <- get_obj this ;;
  Py_XDECREF o ;;
  destruct_end this.

Definition default_string_deinit (s : RF_String) : M unit :=
  emit (EvFree (data s)).

(** ** The scorer context *)

(** The cached scorer of [jaro_winkler.hpp]: its constructor, from a range
    and the remaining arguments, and its [ratio]. *)
Context {CtorArgs : Type}.
Variable CachedScorer_ctor : typed_ptr -> typed_ptr -> CtorArgs -> M Obj.
Variable CachedScorer_ratio : Obj -> typed_ptr -> typed_ptr -> float -> M float.

(** An address free for [new]: not null and not in use. *)
Definition fresh_addr (h : gmap Z Obj) : Z := fresh (dom h ∪ {[0]}).

(** [new T(...)]: [std::bad_alloc] when the free store is exhausted; the
    storage goes back to the free store when the constructor throws. *)
Definition new_obj (ctor : M Obj) : M Z :=
  fun w =>
    match free_store w with
    | O => (Throw (StdExn bad_alloc "std::bad_alloc"), w)
    | S n =>
        match ctor (set_heap (heap w) n w) with
        | (Ret o, w') =>
            let p := fresh_addr (heap w') in
            (Ret p, set_heap (<[p := o]> (heap w')) (free_store w') w')
        | (Throw e, w') =>
            (Throw e, set_heap (heap w') (S (free_store w')) w')
        | (Crash c, w') => (Crash c, w')
        end
    end.

(** [delete p] *)
Definition delete_obj (p : Z) : M unit :=
  fun w =>
    if p =? 0 then (Ret tt, w)
    else
      match heap w !! p with
      | Some _ =>
          (Ret tt, set_heap (delete p (heap w)) (S (free_store w)) w)
      | None => (Crash undefined_behaviour, w)
      end.

(** The use of an object through a pointer. *)
Definition deref (p : Z) : M Obj :=
  fun w =>
    match heap w !! p with
    | Some o => (Ret o, w)
    | None => (Crash undefined_behaviour, w)
    end.

(** [*strings], the first element of the array. *)
Definition deref_first (strings : list RF_String) : M RF_String :=
  match strings with
  | str :: _ => ret str
  | [] => abort undefined_behaviour
  end.

Definition scorer_deinit (self : RF_ScorerFunc) : M unit :=
  delete_obj (scorer_context self).

(** The handler that both entry points share. *)
Definition report {A} (failure : A) : handler A :=
  (catch_all,
   fun _ =>
     PyGILState_Ensure ;;
     CppExn2PyErr ;;
     PyGILState_Release ;;
     ret failure).

(** The right-hand side of the assignment to [*result]. *)
Definition scoring (scorer : Obj) (str : RF_String) (score_cutoff : float)
  : M float :=
  visit str
    (fun first last (_ : unit) =>
       CachedScorer_ratio scorer first last score_cutoff)
    tt.

(** The function returns its flag together with the content of
    [*result]. *)
Definition scorer_func_wrapper_f64 (self : RF_ScorerFunc) (str : RF_String)
    (score_cutoff : float) (result : float) : M (bool * float) :=
  scorer <- deref (scorer_context self) ;;
  try_catch
    (score <- scoring scorer str score_cutoff ;;
     ret (true, score))
    [ report (false, result) ].

(** [Sentence] is the type of [str]; the argument pack is [last] and the
    remaining arguments. *)
Definition get_ScorerContext_f64 (str : typed_ptr) (args : typed_ptr * CtorArgs)
  : M RF_ScorerFunc :=
  p <- new_obj (CachedScorer_ctor str (fst args) (snd args)) ;;
  ret (mkScorerFunc p
         (Some (fn_scorer_func_wrapper_f64 (elem str)))
         (Some (fn_scorer_deinit (elem str)))).

(** The function returns its flag together with the content of [*self]. *)
Definition scorer_init_f64 (self : RF_ScorerFunc) (str_count : Z)
    (strings : list RF_String) (args : CtorArgs) : M (bool * RF_ScorerFunc) :=
  try_catch
    ((if bool_decide (str_count <> 1)
      then throw (StdExn logic_error "Only str_count == 1 supported")
      else ret tt) ;;
     str <- deref_first strings ;;
     context <- visit str
       (fun first last (_ : unit) => get_ScorerContext_f64 first (last, args))
       tt ;;
     ret (true, context))
    [ report (false, self) ].

(** The world the bridge leaves when it handles [e]: a pending host error
    is kept, otherwise the error of the table is installed. *)
Definition bridged (e : CppExn) (w : World) : World :=
  match py_err w with
  | Some _ => w
  | None => set_py_err (Some (host_error_of e)) w
  end.

(** The world a boundary function leaves when its handler has reported
    [e]: the lock is taken, the bridge runs, the lock is given back. *)
Definition reported (e : CppExn) (w : World) : World :=
  log EvGILRelease (bridged e (log EvGILEnsure w)).

(** ** Host strings that are ready *)


(** ** Lifetimes of wrappers *)

Definition run_op (op : wrapper_op) : M unit :=
  match op with
  | op_default this => RF_StringWrapper_default this
  | op_move this other => RF_StringWrapper_move this other
  | op_move_assign this other => move_assign this other
  | op_swap first second => swap first second
  | op_destroy this => RF_StringWrapper_destroy this
  end.

Fixpoint run_ops (ops : list wrapper_op) : M unit :=
  match ops with
  | [] => ret tt
  | op :: ops' => run_op op ;; run_ops ops'
  end.

(** The wrapper at [this] is the only live wrapper that holds the string
    [s]; no live wrapper holds it. *)
Definition sole_holder (s : RF_String) (this : Z)
    (ws : gmap Z RF_StringWrapper) : Prop :=
  (exists x, ws !! this = Some x /\ string x = s) /\
  (forall l x, ws !! l = Some x -> string x = s -> l = this).

Definition no_holder (s : RF_String) (ws : gmap Z RF_StringWrapper) : Prop :=
  forall l x, ws !! l = Some x -> string x <> s.

(** The two stages in the life of a string [s] that a wrapper took over
    when its release callback had been called [n] times: one live wrapper
    holds it and the callback was not called again, or no live wrapper holds
    it and the callback was called once more. *)
Definition held (s : RF_String) (n : nat) (w : World) : Prop :=
  (exists this, sole_holder s this (wrappers w)) /\
  releases s (trace w) = n.

Definition given_up (s : RF_String) (n : nat) (w : World) : Prop :=
  no_holder s (wrappers w) /\ releases s (trace w) = S n.

Definition in_lifetime (s : RF_String) (n : nat) (w : World) : Prop :=
  held s n w \/ given_up s n w.

(** ** The dispatch on two strings, pair by pair *)

Definition decode_kind (k : Z) : option elem_type :=
  if k =? RF_UINT8 then Some uint8_t
  else if k =? RF_UINT16 then Some uint16_t
  else if k =? RF_UINT32 then Some uint32_t
  else if k =? RF_UINT64 then Some uint64_t
  else None.

Definition range_first (ty : elem_type) (str : RF_String) : typed_ptr :=
  mkPtr ty (data str).

Definition range_last (ty : elem_type) (str : RF_String) : typed_ptr :=
  ptr_add (range_first ty str) (length str).

Definition visitor_by_pairs {R Args} (str1 str2 : RF_String)
    (f : typed_ptr -> typed_ptr -> typed_ptr * typed_ptr * Args -> M R)
    (args : Args) : M R :=
  match decode_kind (kind str1), decode_kind (kind str2) with
  | Some ty1, Some ty2 =>
      f (range_first ty1 str1) (range_last ty1 str1)
        (range_first ty2 str2, range_last ty2 str2, args)
  | _, _ => throw (StdExn logic_error "Invalid string type")
  end.


(** The specification's reading of the bridge: the category of what is
    installed is the category its mapping gives the exception. *)
Definition follows_spec_mapping
    (category_of : PyExc * String.string -> HostErrorCategory) : Prop :=
  forall (e : CppExn) (hs : list CppExn) (w : World),
    py_err w = None -> handled w = e :: hs ->
    exists err,
      CppExn2PyErr w = (Ret tt, set_py_err (Some err) w) /\
      category_of err = spec_category e.

(** * Properties *)

(** ** The monad *)

Lemma bind_Ret {A B} (m : M A) (k : A -> M B) (w w' : World) (a : A) :
  m w = (Ret a, w') -> bind m k w = k a w'.
Proof. intros H. unfold bind. now rewrite H. Qed.

Lemma bind_Crash {A B} (m : M A) (k : A -> M B) (w w' : World) (c : crash) :
  m w = (Crash c, w') -> bind m k w = (Crash c, w').
Proof. intros H. unfold bind. now rewrite H. Qed.

(** ** The error bridge *)

(** Whatever is thrown, one handler of the bridge takes it, and it installs
    the host error of the table. *)
Lemma bridge_handler_selected (e : CppExn) :
  select_handler bridge_handlers e =
  Some (PyErr_SetString (fst (host_error_of e)) (snd (host_error_of e))).
Proof. destruct e as [c msg | tag]; [destruct c |]; reflexivity. Qed.

Lemma CppExn2PyErr_pending (w : World) (err : PyExc * String.string) :
  py_err w = Some err -> CppExn2PyErr w = (Ret tt, w).
Proof.
  intros H. unfold CppExn2PyErr, try_catch, bind, PyErr_Occurred.
  rewrite H. reflexivity.
Qed.

Lemma CppExn2PyErr_installs (w : World) (e : CppExn) (hs : list CppExn) :
  py_err w = None -> handled w = e :: hs ->
  CppExn2PyErr w = (Ret tt, set_py_err (Some (host_error_of e)) w).
Proof.
  intros Hnone Hcur. unfold CppExn2PyErr.
  unfold try_catch, bind, PyErr_Occurred, rethrow.
  rewrite Hnone. cbn -[select_handler bridge_handlers].
  rewrite Hcur, bridge_handler_selected.
  destruct (host_error_of e) as [ty msg]. destruct w; cbn in *. now subst.
Qed.

Lemma CppExn2PyErr_idle (w : World) :
  py_err w = None -> handled w = [] ->
  CppExn2PyErr w = (Crash std_terminate, w).
Proof.
  intros Hnone Hcur. unfold CppExn2PyErr, try_catch, bind, PyErr_Occurred, rethrow.
  rewrite Hnone. cbn -[select_handler bridge_handlers]. now rewrite Hcur.
Qed.

(** In a handler the bridge always returns. *)
Lemma CppExn2PyErr_handling (w : World) (e : CppExn) (hs : list CppExn) :
  handled w = e :: hs -> CppExn2PyErr w = (Ret tt, bridged e w).
Proof.
  intros Hcur. unfold bridged. destruct (py_err w) as [err|] eqn:Hp.
  - now apply CppExn2PyErr_pending with err.
  - now apply CppExn2PyErr_installs with hs.
Qed.

(** ** The dispatch *)

Lemma tags_distinct :
  RF_UINT8 <> RF_UINT16 /\ RF_UINT8 <> RF_UINT32 /\ RF_UINT8 <> RF_UINT64 /\
  RF_UINT16 <> RF_UINT32 /\ RF_UINT16 <> RF_UINT64 /\ RF_UINT32 <> RF_UINT64.
Proof.
  pose proof RF_StringType_distinct as H.
  rewrite !NoDup_cons, !not_elem_of_cons in H. tauto.
Qed.

Lemma decode_kind_tag (ty : elem_type) : decode_kind (tag_of ty) = Some ty.
Proof.
  destruct tags_distinct as (H1 & H2 & H3 & H4 & H5 & H6).
  unfold decode_kind.
  destruct ty; cbn;
    repeat
      match goal with
      | |- context [?a =? ?b] =>
          destruct (Z.eqb_spec a b); try congruence
      end.
Qed.

Lemma decode_kind_Some (k : Z) (ty : elem_type) :
  decode_kind k = Some ty -> k = tag_of ty.
Proof.
  unfold decode_kind.
  repeat
    match goal with
    | |- context [?a =? ?b] => destruct (Z.eqb_spec a b)
    end; intros [= <-]; assumption.
Qed.

Lemma decode_kind_None (k : Z) :
  (forall ty, k <> tag_of ty) -> decode_kind k = None.
Proof.
  intros H. destruct (decode_kind k) as [ty|] eqn:E; [|reflexivity].
  apply decode_kind_Some in E. now destruct (H ty).
Qed.

(** The [switch] of [visit] is the decoding of the tag. *)
Lemma visit_decode {R Args} (str : RF_String)
    (f : typed_ptr -> typed_ptr -> Args -> M R) (args : Args) :
  visit str f args =
  match decode_kind (kind str) with
  | Some ty => f (range_first ty str) (range_last ty str) args
  | None => throw (StdExn logic_error "Invalid string type")
  end.
Proof.
  unfold visit, decode_kind.
  repeat
    match goal with
    | |- context [?a =? ?b] => destruct (Z.eqb_spec a b)
    end; reflexivity.
Qed.

Lemma visit_recognized {R Args} (str : RF_String) (ty : elem_type)
    (f : typed_ptr -> typed_ptr -> Args -> M R) (args : Args) :
  kind str = tag_of ty ->
  visit str f args = f (range_first ty str) (range_last ty str) args.
Proof.
  intros H. now rewrite visit_decode, H, decode_kind_tag.
Qed.

Lemma visit_unrecognized {R Args} (str : RF_String)
    (f : typed_ptr -> typed_ptr -> Args -> M R) (args : Args) :
  (forall ty, kind str <> tag_of ty) ->
  visit str f args = throw (StdExn logic_error "Invalid string type").
Proof.
  intros H. now rewrite visit_decode, decode_kind_None.
Qed.

Lemma sizeof_pos (ty : elem_type) : 0 < sizeof ty.
Proof. destruct ty; reflexivity. Qed.

Lemma range_count (ty : elem_type) (str : RF_String) :
  ptr_diff (range_last ty str) (range_first ty str) = length str.
Proof.
  unfold ptr_diff, range_last, range_first, ptr_add. cbn.
  replace (data str + length str * sizeof ty - data str)
    with (length str * sizeof ty) by lia.
  apply Z.div_mul. pose proof (sizeof_pos ty). lia.
Qed.

Lemma visitor_pairs {R Args} (str1 str2 : RF_String)
    (f : typed_ptr -> typed_ptr -> typed_ptr * typed_ptr * Args -> M R)
    (args : Args) :
  visitor str1 str2 f args = visitor_by_pairs str1 str2 f args.
Proof.
  unfold visitor, visitor_by_pairs. rewrite visit_decode.
  destruct (decode_kind (kind str2)) as [ty2|].
  - rewrite visit_decode. now destruct (decode_kind (kind str1)).
  - now destruct (decode_kind (kind str1)).
Qed.

(** ** Host strings *)







(** ** Wrappers, step by step *)

Lemma log_all_nil (w : World) : log_all [] w = w.
Proof. destruct w; unfold log_all; cbn. now rewrite app_nil_r. Qed.

Lemma load_ok (l : Z) (x : RF_StringWrapper) (w : World) :
  wrappers w !! l = Some x -> load l w = (Ret x, w).
Proof. intros H. unfold load. now rewrite H. Qed.

Lemma load_dead (l : Z) (w : World) :
  wrappers w !! l = None -> load l w = (Crash undefined_behaviour, w).
Proof. intros H. unfold load. now rewrite H. Qed.

Lemma get_string_ok (l : Z) (x : RF_StringWrapper) (w : World) :
  wrappers w !! l = Some x -> get_string l w = (Ret (string x), w).
Proof.
  intros H. unfold get_string. now rewrite (bind_Ret _ _ _ _ _ (load_ok _ _ _ H)).
Qed.

Lemma get_string_dead (l : Z) (w : World) :
  wrappers w !! l = None -> get_string l w = (Crash undefined_behaviour, w).
Proof.
  intros H. unfold get_string. now rewrite (bind_Crash _ _ _ _ _ (load_dead _ _ H)).
Qed.

Lemma get_obj_ok (l : Z) (x : RF_StringWrapper) (w : World) :
  wrappers w !! l = Some x -> get_obj l w = (Ret (obj x), w).
Proof.
  intros H. unfold get_obj. now rewrite (bind_Ret _ _ _ _ _ (load_ok _ _ _ H)).
Qed.

Lemma set_string_ok (l : Z) (s : RF_String) (x : RF_StringWrapper) (w : World) :
  wrappers w !! l = Some x ->
  set_string l s w =
  (Ret tt, set_wrappers (<[l := mkWrapper s (obj x)]> (wrappers w)) w).
Proof.
  intros H. unfold set_string. rewrite (bind_Ret _ _ _ _ _ (load_ok _ _ _ H)).
  unfold store. now rewrite H.
Qed.

Lemma set_obj_ok (l o : Z) (x : RF_StringWrapper) (w : World) :
  wrappers w !! l = Some x ->
  set_obj l o w =
  (Ret tt, set_wrappers (<[l := mkWrapper (string x) o]> (wrappers w)) w).
Proof.
  intros H. unfold set_obj. rewrite (bind_Ret _ _ _ _ _ (load_ok _ _ _ H)).
  unfold store. now rewrite H.
Qed.

Ltac lookup_now :=
  cbn [wrappers set_wrappers log_all log]; simplify_map_eq; reflexivity.

Ltac wstep :=
  first
    [ erewrite (bind_Ret (get_string _)) by (apply get_string_ok; lookup_now)
    | erewrite (bind_Ret (get_obj _)) by (apply get_obj_ok; lookup_now)
    | erewrite (bind_Ret (set_string _ _)) by (apply set_string_ok; lookup_now)
    | erewrite (bind_Ret (set_obj _ _)) by (apply set_obj_ok; lookup_now)
    | erewrite set_obj_ok by lookup_now ];
  cbn [wrappers set_wrappers log_all log string obj].

Lemma wrapper_eta (x : RF_StringWrapper) : mkWrapper (string x) (obj x) = x.
Proof. now destruct x. Qed.

Lemma log_all_app (evs1 evs2 : list Event) (w : World) :
  log_all evs2 (log_all evs1 w) = log_all (evs1 ++ evs2) w.
Proof. unfold log_all; cbn. now rewrite <- app_assoc. Qed.

Lemma call_dtor_run (s : RF_String) (w : World) :
  call_dtor s w =
  (Ret tt, log_all (if dtor s =? 0 then [] else [EvDtor (dtor s) s]) w).
Proof.
  unfold call_dtor. destruct (dtor s =? 0); [now rewrite log_all_nil | reflexivity].
Qed.

Lemma Py_XDECREF_run (o : Z) (w : World) :
  Py_XDECREF o w = (Ret tt, log_all (if o =? 0 then [] else [EvDecref o]) w).
Proof.
  unfold Py_XDECREF. destruct (o =? 0); [now rewrite log_all_nil | reflexivity].
Qed.

(** What the wrapper at [this] holds is given up: the two calls, in their
    order. *)
Lemma release_ok {B} (this : Z) (y : RF_StringWrapper) (k : M B) (w : World) :
  wrappers w !! this = Some y ->
  (s <- get_string this ;;
   call_dtor s ;;
   o <- get_obj this ;;
   Py_XDECREF o ;;
   k) w = k (log_all (release_events y) w).
Proof.
  intros H. rewrite (bind_Ret _ _ _ _ _ (get_string_ok _ _ _ H)).
  rewrite (bind_Ret _ _ _ _ _ (call_dtor_run _ _)).
  erewrite (bind_Ret (get_obj this)) by (apply get_obj_ok; exact H).
  rewrite (bind_Ret _ _ _ _ _ (Py_XDECREF_run _ _)).
  now rewrite log_all_app.
Qed.

Ltac same_wrappers :=
  cbn [wrappers set_wrappers log_all log string obj];
  f_equal; unfold set_wrappers, log_all; cbn; f_equal;
  apply map_eq; intros ?l;
  rewrite ?lookup_insert, ?lookup_delete; repeat case_decide; subst;
  rewrite ?wrapper_eta; try congruence; try reflexivity.

(** ** Wrappers, operation by operation *)

Lemma swap_run (a b : Z) (w : World) :
  swap a b w =
  match wrappers w !! a, wrappers w !! b with
  | Some x, Some y =>
      (Ret tt, set_wrappers (<[b := x]> (<[a := y]> (wrappers w))) w)
  | _, _ => (Crash undefined_behaviour, w)
  end.
Proof.
  unfold swap.
  destruct (wrappers w !! a) as [x|] eqn:Ha.
  2:{ now rewrite (bind_Crash _ _ _ _ _ (get_string_dead _ _ Ha)). }
  rewrite (bind_Ret _ _ _ _ _ (get_string_ok _ _ _ Ha)).
  destruct (wrappers w !! b) as [y|] eqn:Hb.
  2:{ now rewrite (bind_Crash _ _ _ _ _ (get_string_dead _ _ Hb)). }
  destruct (decide (a = b)) as [->|Hne].
  - replace y with x in * by congruence.
    repeat wstep. same_wrappers.
  - repeat wstep. same_wrappers.
Qed.

Lemma move_run (this other : Z) (w : World) :
  RF_StringWrapper_move this other w =
  match wrappers w !! this with
  | Some _ => (Crash undefined_behaviour, w)
  | None =>
      match <[this := null_wrapper]> (wrappers w) !! other with
      | Some x =>
          (Ret tt,
           set_wrappers (<[other := null_wrapper]> (<[this := x]> (wrappers w))) w)
      | None =>
          (Crash undefined_behaviour,
           set_wrappers (<[this := null_wrapper]> (wrappers w)) w)
      end
  end.
Proof.
  unfold RF_StringWrapper_move, RF_StringWrapper_default, bind at 1, construct.
  destruct (wrappers w !! this) as [y|] eqn:Hthis; [reflexivity|].
  rewrite swap_run. cbn [wrappers set_wrappers].
  rewrite lookup_insert_eq.
  destruct (<[this := null_wrapper]> (wrappers w) !! other) as [x|];
    [|reflexivity].
  same_wrappers.
Qed.

Lemma move_assign_run (this other : Z) (w : World) :
  move_assign this other w =
  if decide (other = this) then (Ret tt, w)
  else
    match wrappers w !! this with
    | None => (Crash undefined_behaviour, w)
    | Some y =>
        match wrappers w !! other with
        | None => (Crash undefined_behaviour, log_all (release_events y) w)
        | Some x =>
            (Ret tt,
             set_wrappers
               (<[other := null_wrapper]> (<[this := x]> (wrappers w)))
               (log_all (release_events y) w))
        end
    end.
Proof.
  unfold move_assign.
  destruct (decide (other = this)) as [->|Hne].
  - now rewrite bool_decide_eq_false_2 by tauto.
  - rewrite bool_decide_eq_true_2 by assumption.
    destruct (wrappers w !! this) as [y|] eqn:Hthis.
    2:{ now rewrite (bind_Crash _ _ _ _ _ (get_string_dead _ _ Hthis)). }
    rewrite (release_ok _ _ _ _ Hthis).
    destruct (wrappers w !! other) as [x|] eqn:Hother.
    2:{ now rewrite (bind_Crash _ _ _ _ _
                       (get_string_dead other (log_all (release_events y) w)
                          Hother)). }
    repeat wstep. same_wrappers.
Qed.

Lemma destroy_run (this : Z) (w : World) :
  RF_StringWrapper_destroy this w =
  match wrappers w !! this with
  | Some y =>
      (Ret tt,
       set_wrappers (delete this (wrappers w)) (log_all (release_events y) w))
  | None => (Crash undefined_behaviour, w)
  end.
Proof.
  unfold RF_StringWrapper_destroy.
  destruct (wrappers w !! this) as [y|] eqn:Hthis.
  2:{ now rewrite (bind_Crash _ _ _ _ _ (get_string_dead _ _ Hthis)). }
  rewrite (release_ok _ _ _ _ Hthis).
  unfold destruct_end. cbn [wrappers log_all]. now rewrite Hthis.
Qed.

(** A wrapper made from a string and an owner, and destroyed. *)
Lemma owned_destroyed (this : Z) (s : RF_String) (o : Z) (w : World) :
  wrappers w !! this = None ->
  (RF_StringWrapper_owned this s o ;; RF_StringWrapper_destroy this) w =
  (Ret tt,
   log_all ((if o =? 0 then [] else [EvIncref o]) ++
            release_events (mkWrapper s o)) w).
Proof.
  intros Hthis. unfold RF_StringWrapper_owned.
  rewrite (bind_Ret _ _ w
             (log_all (if o =? 0 then [] else [EvIncref o])
                (set_wrappers (<[this := mkWrapper s o]> (wrappers w)) w)) tt).
  2:{ rewrite (bind_Ret _ _ w
                 (set_wrappers (<[this := mkWrapper s o]> (wrappers w)) w) tt)
        by (unfold construct; now rewrite Hthis).
      unfold Py_XINCREF. destruct (o =? 0); [now rewrite log_all_nil | reflexivity]. }
  rewrite destroy_run. cbn [wrappers set_wrappers log_all].
  rewrite lookup_insert_eq, delete_insert_eq, delete_id by assumption.
  f_equal. unfold set_wrappers, log_all; destruct w; cbn.
  now rewrite <- app_assoc.
Qed.

(** ** Who holds a string *)

Section Holders.

Variable s : RF_String.
Hypothesis s_released : dtor s <> 0.

Lemma null_not_held : string null_wrapper <> s.
Proof. intros <-. now apply s_released. Qed.

Lemma sole_holder_holds (h : Z) (ws : gmap Z RF_StringWrapper) (x : RF_StringWrapper) :
  sole_holder s h ws -> ws !! h = Some x -> string x = s.
Proof. intros [(y & Hy & Hs) _] Hx. congruence. Qed.

Lemma sole_holder_others (h l : Z) (ws : gmap Z RF_StringWrapper)
    (x : RF_StringWrapper) :
  sole_holder s h ws -> ws !! l = Some x -> l <> h -> string x <> s.
Proof. intros [_ Hu] Hx Hne Hs. apply Hne. now apply (Hu l x). Qed.

Lemma sole_holder_live (h : Z) (ws : gmap Z RF_StringWrapper) :
  sole_holder s h ws -> is_Some (ws !! h).
Proof. intros [(y & Hy & _) _]. now exists y. Qed.

Lemma no_holder_insert (l : Z) (x : RF_StringWrapper) (ws : gmap Z RF_StringWrapper) :
  no_holder s ws -> string x <> s -> no_holder s (<[l := x]> ws).
Proof.
  intros Hn Hx l' x'. rewrite lookup_insert. case_decide.
  - now intros [= <-].
  - apply Hn.
Qed.

Lemma no_holder_delete (l : Z) (ws : gmap Z RF_StringWrapper) :
  no_holder s ws -> no_holder s (delete l ws).
Proof.
  intros Hn l' x'. rewrite lookup_delete. case_decide; [discriminate | apply Hn].
Qed.

Lemma sole_holder_insert_other (h l : Z) (x : RF_StringWrapper)
    (ws : gmap Z RF_StringWrapper) :
  sole_holder s h ws -> l <> h -> string x <> s ->
  sole_holder s h (<[l := x]> ws).
Proof.
  intros [(y & Hy & Hs) Hu] Hne Hx. split.
  - exists y. now rewrite lookup_insert_ne.
  - intros l' x'. rewrite lookup_insert. case_decide.
    + intros [= <-] Hs'. contradiction.
    + apply Hu.
Qed.

Lemma sole_holder_delete_other (h l : Z) (ws : gmap Z RF_StringWrapper) :
  sole_holder s h ws -> l <> h -> sole_holder s h (delete l ws).
Proof.
  intros [(y & Hy & Hs) Hu] Hne. split.
  - exists y. now rewrite lookup_delete_ne.
  - intros l' x'. rewrite lookup_delete. case_decide; [discriminate | apply Hu].
Qed.

Lemma sole_holder_moved (h l : Z) (x z : RF_StringWrapper)
    (ws : gmap Z RF_StringWrapper) :
  sole_holder s h ws -> l <> h -> string x = s -> string z <> s ->
  sole_holder s l (<[h := z]> (<[l := x]> ws)).
Proof.
  intros [_ Hu] Hne Hx Hz. split.
  - exists x. rewrite lookup_insert_ne by congruence.
    now rewrite lookup_insert_eq.
  - intros l' x'. rewrite !lookup_insert. repeat case_decide; subst.
    + intros [= <-] Hs'. contradiction.
    + reflexivity.
    + intros Hl' Hs'. now destruct (Hu l' x' Hl' Hs').
Qed.

Lemma sole_holder_overwritten (h : Z) (z : RF_StringWrapper)
    (ws : gmap Z RF_StringWrapper) :
  sole_holder s h ws -> string z <> s -> no_holder s (<[h := z]> ws).
Proof.
  intros [_ Hu] Hz l' x'. rewrite lookup_insert. case_decide; subst.
  - now intros [= <-].
  - intros Hl' Hs'. now destruct (Hu l' x' Hl' Hs').
Qed.

Lemma sole_holder_deleted (h : Z) (ws : gmap Z RF_StringWrapper) :
  sole_holder s h ws -> no_holder s (delete h ws).
Proof.
  intros [_ Hu] l' x'. rewrite lookup_delete. case_decide; subst.
  - discriminate.
  - intros Hl' Hs'. now destruct (Hu l' x' Hl' Hs').
Qed.

(** The release callback of [s] is called when a wrapper that holds [s]
    gives it up, and by no other wrapper. *)
Lemma releases_log_all (evs : list Event) (w : World) :
  releases s (trace (log_all evs w)) =
  (releases s (trace w) + releases s evs)%nat.
Proof. unfold releases, log_all; cbn. apply count_occ_app. Qed.

Lemma releases_holder (y : RF_StringWrapper) :
  string y = s -> releases s (release_events y) = 1%nat.
Proof.
  intros Hy. unfold releases, release_events. rewrite Hy.
  destruct (Z.eqb_spec (dtor s) 0) as [E|_]; [now destruct s_released|].
  rewrite count_occ_app, count_occ_cons_eq by reflexivity.
  destruct (obj y =? 0); [reflexivity|].
  now rewrite count_occ_cons_neq by discriminate.
Qed.

Lemma releases_other (y : RF_StringWrapper) :
  string y <> s -> releases s (release_events y) = 0%nat.
Proof.
  intros Hy. unfold releases, release_events. rewrite count_occ_app.
  destruct (dtor (string y) =? 0), (obj y =? 0);
    rewrite ?count_occ_cons_neq by congruence; reflexivity.
Qed.

End Holders.

(** ** One operation in the life of a string *)

Section Lifetime.

Variable s : RF_String.
Variable n : nat.
Hypothesis s_released : dtor s <> 0.

Lemma lifetime_bound (w : World) :
  in_lifetime s n w -> (releases s (trace w) <= S n)%nat.
Proof. intros [[_ H] | [_ H]]; lia. Qed.

Lemma releases_le_one (y : RF_StringWrapper) :
  (releases s (release_events y) <= 1)%nat.
Proof.
  destruct (decide (string y = s)) as [E|E].
  - rewrite releases_holder; auto.
  - rewrite releases_other; auto.
Qed.

(** The move of a wrapper into another place. *)
Lemma transfer_holder (h this other : Z) (x : RF_StringWrapper)
    (ws : gmap Z RF_StringWrapper) :
  sole_holder s h ws -> this <> other -> h <> this ->
  ws !! other = Some x ->
  exists h', sole_holder s h'
               (<[other := null_wrapper]> (<[this := x]> ws)).
Proof.
  intros Hh Hne Hht Hother.
  destruct (decide (h = other)) as [->|Hho].
  - exists this. apply sole_holder_moved; auto using null_not_held.
    now apply (sole_holder_holds s other ws).
  - exists h.
    apply sole_holder_insert_other; auto using null_not_held.
    apply sole_holder_insert_other; auto.
    now apply (sole_holder_others s h other ws).
Qed.

Lemma transfer_none (this other : Z) (x : RF_StringWrapper)
    (ws : gmap Z RF_StringWrapper) :
  no_holder s ws -> ws !! other = Some x ->
  no_holder s (<[other := null_wrapper]> (<[this := x]> ws)).
Proof.
  intros Hno Hother.
  apply no_holder_insert; auto using null_not_held.
  apply no_holder_insert; auto. now apply (Hno other).
Qed.

Lemma default_stage (this : Z) (w : World) :
  in_lifetime s n w -> wrappers w !! this = None ->
  in_lifetime s n (set_wrappers (<[this := null_wrapper]> (wrappers w)) w).
Proof.
  intros [[[h Hh] Hn] | [Hno Hn]] Hthis; [left | right]; split; try exact Hn.
  - exists h. apply sole_holder_insert_other; auto using null_not_held.
    intros ->. destruct (sole_holder_live _ _ _ Hh) as [y Hy]. congruence.
  - apply no_holder_insert; auto using null_not_held.
Qed.

Lemma move_stage (this other : Z) (x : RF_StringWrapper) (w : World) :
  in_lifetime s n w -> wrappers w !! this = None ->
  wrappers w !! other = Some x ->
  in_lifetime s n
    (set_wrappers (<[other := null_wrapper]> (<[this := x]> (wrappers w))) w).
Proof.
  intros [[[h Hh] Hn] | [Hno Hn]] Hthis Hother; [left | right];
    split; try exact Hn.
  - apply (transfer_holder h); auto; intros ->.
    + congruence.
    + destruct (sole_holder_live _ _ _ Hh) as [y Hy]. congruence.
  - now apply transfer_none.
Qed.

Lemma swap_stage (a b : Z) (x y : RF_StringWrapper) (w : World) :
  in_lifetime s n w -> wrappers w !! a = Some x -> wrappers w !! b = Some y ->
  in_lifetime s n (set_wrappers (<[b := x]> (<[a := y]> (wrappers w))) w).
Proof.
  intros Hst Ha Hb.
  destruct (decide (a = b)) as [->|Hne].
  { replace y with x by congruence.
    rewrite insert_insert_eq, insert_id by assumption.
    now destruct w. }
  destruct Hst as [[[h Hh] Hn] | [Hno Hn]]; [left | right];
    split; try exact Hn.
  - destruct (decide (h = a)) as [->|Hha]; [|destruct (decide (h = b)) as [->|Hhb]].
    + exists b. rewrite insert_insert_ne by congruence.
      apply sole_holder_moved; auto.
      * now apply (sole_holder_holds s a (wrappers w)).
      * now apply (sole_holder_others s a b (wrappers w)).
    + exists a. apply sole_holder_moved; auto.
      * now apply (sole_holder_holds s b (wrappers w)).
      * now apply (sole_holder_others s b a (wrappers w)).
    + exists h.
      apply sole_holder_insert_other; auto.
      * apply sole_holder_insert_other; auto.
        now apply (sole_holder_others s h b (wrappers w)).
      * now apply (sole_holder_others s h a (wrappers w)).
  - apply no_holder_insert; [apply no_holder_insert |]; auto.
    + now apply (Hno b).
    + now apply (Hno a).
Qed.

(** The wrapper at [this] gives up what it holds and the live wrappers
    become [ws]. *)
Lemma release_stage (this : Z) (y : RF_StringWrapper)
    (ws : gmap Z RF_StringWrapper) (w : World) :
  in_lifetime s n w -> wrappers w !! this = Some y ->
  (sole_holder s this (wrappers w) -> no_holder s ws) ->
  (forall h, sole_holder s h (wrappers w) -> h <> this ->
             exists h', sole_holder s h' ws) ->
  (no_holder s (wrappers w) -> no_holder s ws) ->
  in_lifetime s n (set_wrappers ws (log_all (release_events y) w)).
Proof.
  intros [[[h Hh] Hn] | [Hno Hn]] Hthis Hgone Hkept Hnone.
  - destruct (decide (h = this)) as [->|Hne].
    + right. split; [now apply Hgone|].
      cbn [trace set_wrappers]. rewrite releases_log_all, Hn.
      rewrite releases_holder; [lia | assumption |].
      now apply (sole_holder_holds s this (wrappers w)).
    + left. split; [now apply (Hkept h)|].
      cbn [trace set_wrappers]. rewrite releases_log_all, Hn.
      rewrite releases_other; [lia|].
      now apply (sole_holder_others s h this (wrappers w)).
  - right. split; [now apply Hnone|].
    cbn [trace set_wrappers]. rewrite releases_log_all, Hn.
    rewrite releases_other; [lia|]. now apply (Hno this).
Qed.

Lemma release_bound (this : Z) (y : RF_StringWrapper) (w : World) :
  in_lifetime s n w -> wrappers w !! this = Some y ->
  (releases s (trace (log_all (release_events y) w)) <= S n)%nat.
Proof.
  intros [[_ Hn] | [Hno Hn]] Hthis; rewrite releases_log_all, Hn.
  - pose proof (releases_le_one y). lia.
  - rewrite releases_other; [lia|]. now apply (Hno this).
Qed.

(** An operation that returns leaves the string in its lifetime; one that
    does not stops the program with the callback called at most once
    more. *)
Lemma run_op_stage (op : wrapper_op) (w : World) :
  in_lifetime s n w ->
  match run_op op w with
  | (Ret _, w') => in_lifetime s n w'
  | (_, w') => (releases s (trace w') <= S n)%nat
  end.
Proof.
  intros Hst. destruct op as [this | this other | this other | a b | this];
    cbn [run_op].
  - unfold RF_StringWrapper_default, construct.
    destruct (wrappers w !! this) eqn:Hthis.
    + now apply lifetime_bound.
    + now apply default_stage.
  - rewrite move_run.
    destruct (wrappers w !! this) eqn:Hthis; [now apply lifetime_bound|].
    destruct (decide (this = other)) as [<-|Hne].
    + rewrite lookup_insert_eq, insert_insert_eq. now apply default_stage.
    + rewrite lookup_insert_ne by assumption.
      destruct (wrappers w !! other) as [x|] eqn:Hother.
      * now apply move_stage.
      * now apply (lifetime_bound w).
  - rewrite move_assign_run.
    destruct (decide (other = this)) as [->|Hne]; [assumption|].
    destruct (wrappers w !! this) as [y|] eqn:Hthis; [|now apply lifetime_bound].
    destruct (wrappers w !! other) as [x|] eqn:Hother.
    + apply (release_stage this); auto.
      * intros Hh. apply no_holder_insert; auto using null_not_held.
        apply sole_holder_overwritten; auto.
        now apply (sole_holder_others s this other (wrappers w)).
      * intros h Hh Hht. apply (transfer_holder h); auto.
      * intros Hno. now apply transfer_none.
    + now apply (release_bound this).
  - rewrite swap_run.
    destruct (wrappers w !! a) as [x|] eqn:Ha; [|now apply lifetime_bound].
    destruct (wrappers w !! b) as [y|] eqn:Hb; [|now apply lifetime_bound].
    now apply swap_stage.
  - rewrite destroy_run.
    destruct (wrappers w !! this) as [y|] eqn:Hthis; [|now apply lifetime_bound].
    apply (release_stage this); auto.
    + apply sole_holder_deleted.
    + intros h Hh Hht. exists h. now apply sole_holder_delete_other.
    + apply no_holder_delete.
Qed.

Lemma run_ops_bound (ops : list wrapper_op) (w : World) :
  in_lifetime s n w ->
  (releases s (trace (snd (run_ops ops w))) <= S n)%nat.
Proof.
  revert w. induction ops as [|op ops IH]; intros w Hst; cbn [run_ops].
  - now apply lifetime_bound.
  - pose proof (run_op_stage op w Hst) as Hop. unfold bind.
    destruct (run_op op w) as [[[] | e | c] w']; cbn [snd]; auto.
Qed.

End Lifetime.

(** ** The boundary functions *)

(** A [try] block whose only handler is the reporting [catch (...)]. *)
Lemma try_report {A} (body : M A) (failure : A) (w : World) :
  try_catch body [report failure] w =
  match body w with
  | (Throw e, w1) => (Ret failure, reported e w1)
  | r => r
  end.
Proof.
  unfold try_catch. destruct (body w) as [[a | e | c] w1]; try reflexivity.
  cbn [select_handler report clause_matches].
  unfold PyGILState_Ensure, PyGILState_Release.
  rewrite (bind_Ret _ _ _ (log EvGILEnsure (set_handled (e :: handled w1) w1)) tt)
    by reflexivity.
  rewrite (bind_Ret _ _ _ _ _
             (CppExn2PyErr_handling
                (log EvGILEnsure (set_handled (e :: handled w1) w1))
                e (handled w1) eq_refl)).
  unfold reported, bridged, bind, emit, ret. cbn [py_err log set_handled].
  destruct w1 as [[err|] hs tr h n ws]; reflexivity.
Qed.

Lemma reported_spec (e : CppExn) (w : World) :
  py_err (reported e w) =
    Some (match py_err w with Some err => err | None => host_error_of e end) /\
  trace (reported e w) = (trace w ++ [EvGILEnsure; EvGILRelease])%list /\
  handled (reported e w) = handled w /\
  heap (reported e w) = heap w /\
  free_store (reported e w) = free_store w /\
  wrappers (reported e w) = wrappers w.
Proof.
  unfold reported, bridged. cbn [py_err log].
  destruct w as [[err|] hs tr h n ws]; cbn; rewrite <- app_assoc; tauto.
Qed.

Lemma scorer_init_f64_count (self : RF_ScorerFunc) (str_count : Z)
    (strings : list RF_String) (args : CtorArgs) (w : World) :
  str_count <> 1 ->
  scorer_init_f64 self str_count strings args w =
  (Ret (false, self),
   reported (StdExn logic_error "Only str_count == 1 supported") w).
Proof.
  intros Hcount. unfold scorer_init_f64. rewrite try_report.
  rewrite bool_decide_eq_true_2 by assumption. reflexivity.
Qed.

Lemma scorer_func_wrapper_f64_run (self : RF_ScorerFunc) (str : RF_String)
    (score_cutoff result : float) (scorer : Obj) (w : World) :
  heap w !! scorer_context self = Some scorer ->
  scorer_func_wrapper_f64 self str score_cutoff result w =
  match scoring scorer str score_cutoff w with
  | (Ret score, w1) => (Ret (true, score), w1)
  | (Throw e, w1) => (Ret (false, result), reported e w1)
  | (Crash c, w1) => (Crash c, w1)
  end.
Proof.
  intros Hctx. unfold scorer_func_wrapper_f64.
  rewrite (bind_Ret _ _ w w scorer) by (unfold deref; now rewrite Hctx).
  rewrite try_report. unfold bind.
  now destruct (scoring scorer str score_cutoff w) as [[score | e | c] w1].
Qed.

(** * The claims *)

(** C1. For a string whose tag is one of the four enumerators, [visit] is
    one call of the callback: on the pointer to the first element, cast to
    the element type of the tag, and on that pointer plus [length], a range
    of exactly [length] elements, and it ends as that call ends.  For any
    other tag, [visit] throws [std::logic_error] whatever the callback is,
    and leaves the world as it was: the callback is not called. *)
Theorem visit_dispatches {R Args} (str : RF_String)
    (f : typed_ptr -> typed_ptr -> Args -> M R) (args : Args) :
  (forall ty, kind str = tag_of ty ->
     visit str f args =
       f (mkPtr ty (data str)) (ptr_add (mkPtr ty (data str)) (length str))
         args /\
     ptr_diff (ptr_add (mkPtr ty (data str)) (length str))
              (mkPtr ty (data str)) = length str) /\
  ((forall ty, kind str <> tag_of ty) ->
   forall w,
     visit str f args w =
       (Throw (StdExn logic_error "Invalid string type"), w)).
Proof.
  split.
  - intros ty Hkind. split.
    + now apply visit_recognized.
    + apply (range_count ty str).
  - intros Hkind w. now rewrite visit_unrecognized.
Qed.

(** C2. With a host error pending, the bridge returns and leaves the world,
    and so the pending error with its type and message, as it was, whatever
    exception is being handled; the bridge changes the host's error only
    when none was pending. *)
Theorem pending_error_kept (w : World) :
  (forall err, py_err w = Some err -> CppExn2PyErr w = (Ret tt, w)) /\
  (py_err (snd (CppExn2PyErr w)) <> py_err w -> py_err w = None).
Proof.
  split.
  - intros err. apply CppExn2PyErr_pending.
  - intros Hchanged. destruct (py_err w) as [err|] eqn:Hp; [|reflexivity].
    rewrite (CppExn2PyErr_pending w err Hp) in Hchanged. cbn in Hchanged.
    congruence.
Qed.

(** C3, amended. With no host error pending, the bridge installs one host
    error for the exception being handled, the one of [host_error_of].  For
    an exception of the [std::exception] hierarchy its type stands for the
    category the specification gives the exception (overflow is installed
    as [OverflowError], range violation and underflow as
    [ArithmeticError]) and its message is the exception's.  A foreign
    exception is installed as [RuntimeError], the type of the generic
    runtime category, with the fixed message "Unknown exception". *)
Theorem bridge_classifies (w : World) (e : CppExn) (hs : list CppExn) :
  py_err w = None -> handled w = e :: hs ->
  exists ty msg,
    CppExn2PyErr w = (Ret tt, set_py_err (Some (ty, msg)) w) /\
    (ty, msg) = host_error_of e /\
    match e with
    | StdExn _ _ => category_of_type ty = spec_category e /\ msg = what e
    | Foreign _ =>
        ty = PyExc_RuntimeError /\ category_of_type ty = generic_runtime /\
        msg = "Unknown exception"
    end.
Proof.
  intros Hnone Hcur.
  exists (fst (host_error_of e)), (snd (host_error_of e)).
  rewrite <- surjective_pairing. split; [|split; [reflexivity|]].
  - now apply CppExn2PyErr_installs with hs.
  - destruct e as [c msg | tag]; [destruct c|]; cbn; auto.
Qed.

(** C4. With [str_count] different from 1, [scorer_init_f64] returns
    [false] and leaves [*self] as it was; the free store is as before (no
    [new] was evaluated; the result does not depend on the strings nor on
    the constructor of the scorer); the lock was taken and given back; and
    the host's error is the one that was pending, or else the
    [RuntimeError] made from the [std::logic_error] "Only str_count == 1
    supported". *)
Theorem scorer_init_f64_rejects_count (self : RF_ScorerFunc) (str_count : Z)
    (strings : list RF_String) (args : CtorArgs) (w : World) :
  str_count <> 1 ->
  exists w',
    scorer_init_f64 self str_count strings args w = (Ret (false, self), w') /\
    heap w' = heap w /\
    free_store w' = free_store w /\
    py_err w' =
      Some (match py_err w with
            | Some err => err
            | None => (PyExc_RuntimeError, "Only str_count == 1 supported")
            end) /\
    trace w' = (trace w ++ [EvGILEnsure; EvGILRelease])%list /\
    handled w' = handled w /\
    wrappers w' = wrappers w.
Proof.
  intros Hcount.
  exists (reported (StdExn logic_error "Only str_count == 1 supported") w).
  split; [now apply scorer_init_f64_count|].
  pose proof (reported_spec
                (StdExn logic_error "Only str_count == 1 supported") w)
    as (Herr & Htrace & Hhandled & Hheap & Hfree & Hwrappers).
  cbn [host_error_of] in Herr. tauto.
Qed.

(** C5. On a live scorer, [scorer_func_wrapper_f64] returns [true] with the
    score in [*result] when the scoring call returns; when the dispatch or
    the scoring throws, it takes the lock, runs the bridge on the
    exception, gives the lock back and returns [false] with [*result] as it
    was.  No exception leaves it.  On a recognized tag the scoring call is
    the scorer's [ratio] on the range of the string; on an unrecognized tag
    it is the [std::logic_error] of [visit]. *)
Theorem scorer_func_wrapper_f64_catches (self : RF_ScorerFunc)
    (str : RF_String) (score_cutoff result : float) (scorer : Obj)
    (w : World) :
  heap w !! scorer_context self = Some scorer ->
  (forall score w1,
     scoring scorer str score_cutoff w = (Ret score, w1) ->
     scorer_func_wrapper_f64 self str score_cutoff result w =
       (Ret (true, score), w1)) /\
  (forall e w1,
     scoring scorer str score_cutoff w = (Throw e, w1) ->
     scorer_func_wrapper_f64 self str score_cutoff result w =
       (Ret (false, result), reported e w1)) /\
  (forall e w',
     scorer_func_wrapper_f64 self str score_cutoff result w <> (Throw e, w')) /\
  (forall ty,
     kind str = tag_of ty ->
     scoring scorer str score_cutoff w =
       CachedScorer_ratio scorer (mkPtr ty (data str))
         (ptr_add (mkPtr ty (data str)) (length str)) score_cutoff w) /\
  ((forall ty, kind str <> tag_of ty) ->
   scorer_func_wrapper_f64 self str score_cutoff result w =
     (Ret (false, result),
      reported (StdExn logic_error "Invalid string type") w)).
Proof.
  intros Hctx. rewrite (scorer_func_wrapper_f64_run _ _ _ _ scorer w Hctx).
  split; [|split; [|split; [|split]]].
  - intros score w1 H. now rewrite H.
  - intros e w1 H. now rewrite H.
  - intros e w'. now destruct (scoring scorer str score_cutoff w) as [[? | ? | ?] ?].
  - intros ty Hkind. unfold scoring. now rewrite (visit_recognized str ty).
  - intros Hkind. unfold scoring. now rewrite visit_unrecognized.
Qed.

(** C6. [visitor] is the dispatch on the second string around the dispatch
    on the first one.  For each of the sixteen pairs of recognized tags it
    is one call of the callback, on the range of the first string followed
    by the range of the second one, and on every pair of tags it is what
    the dispatch on the pair of tags gives. *)
Theorem visitor_composes {R Args} (str1 str2 : RF_String)
    (f : typed_ptr -> typed_ptr -> typed_ptr * typed_ptr * Args -> M R)
    (args : Args) :
  visitor str1 str2 f args =
    visit str2
      (fun first last (_ : unit) => visit str1 f (first, last, args)) tt /\
  visitor str1 str2 f args = visitor_by_pairs str1 str2 f args /\
  (forall ty1 ty2,
     kind str1 = tag_of ty1 -> kind str2 = tag_of ty2 ->
     visitor str1 str2 f args =
       f (mkPtr ty1 (data str1))
         (ptr_add (mkPtr ty1 (data str1)) (length str1))
         (mkPtr ty2 (data str2),
          ptr_add (mkPtr ty2 (data str2)) (length str2), args)).
Proof.
  split; [reflexivity|]. split; [apply visitor_pairs|].
  intros ty1 ty2 H1 H2. unfold visitor.
  rewrite (visit_recognized str2 ty2) by assumption.
  now rewrite (visit_recognized str1 ty1) by assumption.
Qed.

(** C7. The destructor of a wrapper that holds a release callback and an
    owner calls the callback once and then drops the owner's reference
    once, and makes no other call; a wrapper made from such a string and
    an owner and then destroyed takes the owner's reference, calls the
    callback and drops the reference, each once.  After a move
    construction, and after a move assignment to another wrapper, the
    source is the null wrapper and its destructor makes no call.  Whatever
    default constructions, moves, move assignments, swaps and destructions
    follow, the release callback of a string that one live wrapper holds is
    called at most once. *)
Theorem wrapper_releases_once :
  (forall this x (w : World),
     wrappers w !! this = Some x -> dtor (string x) <> 0 -> obj x <> 0 ->
     RF_StringWrapper_destroy this w =
       (Ret tt,
        set_wrappers (delete this (wrappers w))
          (log_all [EvDtor (dtor (string x)) (string x); EvDecref (obj x)] w))) /\
  (forall this s o (w : World),
     wrappers w !! this = None -> dtor s <> 0 -> o <> 0 ->
     (RF_StringWrapper_owned this s o ;; RF_StringWrapper_destroy this) w =
       (Ret tt, log_all [EvIncref o; EvDtor (dtor s) s; EvDecref o] w)) /\
  (forall this other x (w : World),
     wrappers w !! this = None -> wrappers w !! other = Some x ->
     exists w1 w2,
       RF_StringWrapper_move this other w = (Ret tt, w1) /\
       wrappers w1 !! this = Some x /\
       wrappers w1 !! other = Some null_wrapper /\
       trace w1 = trace w /\
       RF_StringWrapper_destroy other w1 = (Ret tt, w2) /\
       trace w2 = trace w1) /\
  (forall this other x y (w : World),
     other <> this ->
     wrappers w !! this = Some y -> wrappers w !! other = Some x ->
     exists w1 w2,
       move_assign this other w = (Ret tt, w1) /\
       wrappers w1 !! this = Some x /\
       wrappers w1 !! other = Some null_wrapper /\
       trace w1 = (trace w ++ release_events y)%list /\
       RF_StringWrapper_destroy other w1 = (Ret tt, w2) /\
       trace w2 = trace w1) /\
  (forall s this ops (w : World),
     dtor s <> 0 -> sole_holder s this (wrappers w) ->
     (releases s (trace (snd (run_ops ops w))) <= S (releases s (trace w)))%nat).
Proof.
  split; [|split; [|split; [|split]]].
  - intros this x w Hthis Hdtor Hobj. rewrite destroy_run, Hthis.
    unfold release_events.
    destruct (Z.eqb_spec (dtor (string x)) 0); [contradiction|].
    now destruct (Z.eqb_spec (obj x) 0).
  - intros this s o w Hthis Hdtor Hobj. rewrite owned_destroyed by assumption.
    unfold release_events. cbn [string obj].
    destruct (Z.eqb_spec (dtor s) 0); [contradiction|].
    now destruct (Z.eqb_spec o 0).
  - intros this other x w Hthis Hother.
    assert (this <> other) as Hne by congruence.
    rewrite move_run, Hthis.
    rewrite lookup_insert_ne, Hother by assumption.
    eexists _, _. split; [reflexivity|]. cbn [wrappers set_wrappers trace].
    rewrite lookup_insert_eq, lookup_insert_ne, lookup_insert_eq by congruence.
    rewrite destroy_run. cbn [wrappers set_wrappers].
    rewrite lookup_insert_eq.
    do 4 (split; [reflexivity|]). cbn. now rewrite app_nil_r.
  - intros this other x y w Hne Hthis Hother.
    rewrite move_assign_run.
    rewrite decide_False, Hthis, Hother by assumption.
    eexists _, _. split; [reflexivity|]. cbn [wrappers set_wrappers trace log_all].
    rewrite lookup_insert_eq, lookup_insert_ne, lookup_insert_eq by congruence.
    rewrite destroy_run. cbn [wrappers set_wrappers].
    rewrite lookup_insert_eq.
    do 4 (split; [reflexivity|]). cbn. now rewrite app_nil_r.
  - intros s this ops w Hdtor Hsole.
    apply run_ops_bound; [assumption|].
    left. split; [now exists this | reflexivity].
Qed.


(** C9, amended. Called with no host error pending and no exception being
    handled, the bridge installs nothing: its bare [throw;] has no
    exception to rethrow, [std::terminate] is called and the process stops
    with the host's error still unset. *)
Theorem bridge_without_exception_terminates (w : World) :
  py_err w = None -> handled w = [] ->
  CppExn2PyErr w = (Crash std_terminate, w) /\
  py_err (snd (CppExn2PyErr w)) = None.
Proof.
  intros Hnone Hcur. rewrite (CppExn2PyErr_idle w Hnone Hcur).
  split; [reflexivity | exact Hnone].
Qed.

(** C10. The move assignment of a wrapper to itself returns and leaves the
    world as it was: the fields of the wrapper are unchanged and neither
    the release callback nor the owner's reference is touched. *)
Theorem self_move_assign_is_identity (this : Z) (w : World) :
  move_assign this this w = (Ret tt, w).
Proof.
  unfold move_assign. now rewrite bool_decide_eq_false_2 by tauto.
Qed.

(** * Further properties *)

(** ** Helpers *)

Lemma bind_Throw {A B} (m : M A) (k : A -> M B) (w w' : World) (e : CppExn) :
  m w = (Throw e, w') -> bind m k w = (Throw e, w').
Proof. intros H. unfold bind. now rewrite H. Qed.

Lemma lor_disjoint (a b n : Z) :
  0 <= n -> 0 <= b < 2 ^ n -> Z.lor (a * 2 ^ n) b = a * 2 ^ n + b.
Proof.
  intros Hn Hb.
  assert (Z.land (a * 2 ^ n) b = 0) as Hland.
  { apply Z.bits_inj'. intros i Hi. rewrite Z.land_spec, Z.bits_0.
    destruct (Z.lt_ge_cases i n) as [Hlt|Hge].
    - now rewrite Z.mul_pow2_bits_low.
    - destruct (Z.eq_dec b 0) as [->|Hb0].
      + now rewrite Z.bits_0, andb_false_r.
      + rewrite (Z.bits_above_log2 b i), andb_false_r; [reflexivity | lia |].
        apply Z.log2_lt_pow2; [lia|].
        apply Z.lt_le_trans with (2 ^ n); [lia|].
        apply Z.pow_le_mono_r; lia. }
  now rewrite <- Z.lxor_lor, <- Z.add_nocarry_lxor.
Qed.

Lemma PYTHON_VERSION_sum (major minor micro : Z) :
  0 <= minor < 256 -> 0 <= micro < 256 ->
  PYTHON_VERSION major minor micro =
  major * 2 ^ 24 + minor * 2 ^ 16 + micro * 2 ^ 8.
Proof.
  intros Hminor Hmicro. unfold PYTHON_VERSION.
  rewrite !Z.shiftl_mul_pow2 by lia.
  rewrite (lor_disjoint major (minor * 2 ^ 16) 24) by lia.
  replace (major * 2 ^ 24 + minor * 2 ^ 16)
    with ((major * 2 ^ 8 + minor) * 2 ^ 16) by lia.
  rewrite (lor_disjoint _ (micro * 2 ^ 8) 16) by lia.
  reflexivity.
Qed.

Lemma ready_or_throw_new (py : PyObject) :
  PYTHON_VERSION 3 10 0 <= PY_VERSION_HEX -> ready_or_throw py = ret tt.
Proof.
  intros H. unfold ready_or_throw.
  now destruct (Z.ltb_spec PY_VERSION_HEX (PYTHON_VERSION 3 10 0)); [lia|].
Qed.

Lemma ready_or_throw_fails (py : PyObject) (r : Z) (w w1 : World) :
  PY_VERSION_HEX < PYTHON_VERSION 3 10 0 ->
  PyUnicode_READY py w = (Ret r, w1) -> r <> 0 ->
  ready_or_throw py w = (Throw (StdExn runtime_error ""), w1).
Proof.
  intros Hold Hready Hr. unfold ready_or_throw.
  destruct (Z.ltb_spec PY_VERSION_HEX (PYTHON_VERSION 3 10 0)); [|lia].
  rewrite (bind_Ret _ _ _ _ _ Hready).
  now destruct (Z.eqb_spec r 0).
Qed.

(** ** The string checks *)

(** X1. [is_valid_string] and [validate_string] decide alike: where the
    first returns [true] the second returns, in the same world; the first
    returns [false] only for an object that is neither bytes nor text,
    without touching the world, and there the second throws the
    [PythonTypeError] with the caller's message; and where one leaves by an
    exception or stops, the other does the same. *)
Theorem validators_agree (py : PyObject) (err : String.string) (w : World) :
  match is_valid_string py w with
  | (Ret true, w') => validate_string py err w = (Ret tt, w')
  | (Ret false, w') =>
      w' = w /\ py = PyOther /\
      validate_string py err w = (Throw (StdExn PythonTypeError err), w)
  | (Throw e, w') => validate_string py err w = (Throw e, w')
  | (Crash c, w') => validate_string py err w = (Crash c, w')
  end.
Proof.
  destruct py as [p n | k p n |]; unfold is_valid_string, validate_string;
    cbn [PyBytes_Check PyUnicode_Check].
  - reflexivity.
  - unfold bind.
    now destruct (ready_or_throw (PyUnicode k p n) w) as [[[] | e | c] w'].
  - cbn. auto.
Qed.

(** X2. On a host older than 3.10, a text object that the host fails to
    make ready is turned down by both checks with a [std::runtime_error]
    whose message is empty, in the world [PyUnicode_READY] left; when the
    host has set its error there, the bridge keeps that error. *)
Theorem unready_text_rejected (k p n r : Z) (err : String.string)
    (w w1 : World) :
  PY_VERSION_HEX < PYTHON_VERSION 3 10 0 ->
  PyUnicode_READY (PyUnicode k p n) w = (Ret r, w1) -> r <> 0 ->
  validate_string (PyUnicode k p n) err w =
    (Throw (StdExn runtime_error ""), w1) /\
  is_valid_string (PyUnicode k p n) w =
    (Throw (StdExn runtime_error ""), w1) /\
  (forall pending hs,
     py_err w1 = Some pending ->
     CppExn2PyErr (set_handled (StdExn runtime_error "" :: hs) w1) =
       (Ret tt, set_handled (StdExn runtime_error "" :: hs) w1)) /\
  (forall hs,
     py_err w1 = None ->
     py_err (snd (CppExn2PyErr
                    (set_handled (StdExn runtime_error "" :: hs) w1))) =
       Some (PyExc_RuntimeError, "")).
Proof.
  intros Hold Hready Hr.
  pose proof (ready_or_throw_fails _ r w w1 Hold Hready Hr) as Hthrow.
  unfold validate_string, is_valid_string. cbn [PyBytes_Check PyUnicode_Check].
  rewrite !(bind_Throw _ _ _ _ _ Hthrow).
  split; [reflexivity|]. split; [reflexivity|]. split.
  - intros pending hs Hp. now apply (CppExn2PyErr_pending _ pending).
  - intros hs Hp.
    now rewrite (CppExn2PyErr_installs
                   (set_handled (StdExn runtime_error "" :: hs) w1)
                   (StdExn runtime_error "") hs Hp eq_refl).
Qed.

(** X3. For a major number from 0 to 127 and a minor and a micro number
    from 0 to 255, where the shifts of the macro stay within [int],
    [PYTHON_VERSION] is [major * 2^24 + minor * 2^16 + micro * 2^8], a
    value from 0 to [2^31 - 1]; two such versions compare as their
    components do, the major number first. *)
Theorem PYTHON_VERSION_orders (major minor micro major' minor' micro' : Z) :
  0 <= major < 128 -> 0 <= minor < 256 -> 0 <= micro < 256 ->
  0 <= major' < 128 -> 0 <= minor' < 256 -> 0 <= micro' < 256 ->
  PYTHON_VERSION major minor micro =
    major * 2 ^ 24 + minor * 2 ^ 16 + micro * 2 ^ 8 /\
  0 <= PYTHON_VERSION major minor micro < 2 ^ 31 /\
  (PYTHON_VERSION major minor micro < PYTHON_VERSION major' minor' micro' <->
   major < major' \/
   (major = major' /\
    (minor < minor' \/ (minor = minor' /\ micro < micro')))).
Proof.
  intros H0 H1 H2 H0' H3 H4. split; [now apply PYTHON_VERSION_sum|].
  rewrite !PYTHON_VERSION_sum by assumption. lia.
Qed.

(** ** The bridge, again *)

(** X4. While an exception is handled, running the bridge a second time
    changes nothing: whatever the first run installed or kept is pending
    for the second.  Either run changes nothing but the host's error. *)
Theorem bridge_runs_once (w : World) (e : CppExn) (hs : list CppExn) :
  handled w = e :: hs ->
  (CppExn2PyErr ;; CppExn2PyErr) w = CppExn2PyErr w /\
  exists err,
    CppExn2PyErr w = (Ret tt, set_py_err (Some err) w) /\
    (forall pending, py_err w = Some pending -> err = pending).
Proof.
  intros Hcur. rewrite (CppExn2PyErr_handling w e hs Hcur). split.
  - rewrite (bind_Ret _ _ w (bridged e w) tt)
      by apply (CppExn2PyErr_handling w e hs Hcur).
    unfold bridged. destruct (py_err w) as [err|] eqn:Hp.
    + now apply (CppExn2PyErr_pending w err).
    + now apply (CppExn2PyErr_pending _ (host_error_of e)).
  - unfold bridged. destruct (py_err w) as [err|] eqn:Hp.
    + exists err. split; [|now intros pending [= <-]].
      destruct w; cbn in *. now subst.
    + exists (host_error_of e). split; [reflexivity | discriminate].
Qed.

(** X5. No handler of the bridge is hidden by an earlier one: for the
    handler written at any position, an exception of the very class it
    names (for [catch (...)], a foreign exception) matches its clause and
    the clause of none of the handlers written before it, so that it is
    the handler selected. *)
Theorem bridge_clauses_not_shadowed
    (i : nat) (cl : catch_clause) (h : CppExn -> M unit) (e : CppExn) :
  bridge_handlers !! i = Some (cl, h) ->
  match cl with
  | catch_class c => exists msg, e = StdExn c msg
  | catch_all => exists tag, e = Foreign tag
  end ->
  clause_matches cl e = true /\
  Forall (fun h' : handler unit => clause_matches (fst h') e = false)
    (take i bridge_handlers) /\
  select_handler bridge_handlers e = Some (h e).
Proof.
  intros Hi He. unfold bridge_handlers in *.
  do 12 (destruct i as [|i];
         [ cbn in Hi; injection Hi as <- <-; destruct He as [m ->];
           split; [reflexivity | split; [repeat constructor | reflexivity]]
         | ]).
  discriminate Hi.
Qed.

(** ** The dispatch, again *)

(** X6. When the tag of either string is no enumerator, [visitor] throws
    the [std::logic_error] of [visit] and leaves the world as it was,
    whatever the callback is: the callback is not called on a pair of
    which one half has no type. *)
Theorem visitor_rejects_unrecognized {R Args} (str1 str2 : RF_String)
    (f : typed_ptr -> typed_ptr -> typed_ptr * typed_ptr * Args -> M R)
    (args : Args) (w : World) :
  (forall ty, kind str1 <> tag_of ty) \/ (forall ty, kind str2 <> tag_of ty) ->
  visitor str1 str2 f args w =
  (Throw (StdExn logic_error "Invalid string type"), w).
Proof.
  intros Hbad. rewrite visitor_pairs. unfold visitor_by_pairs.
  destruct Hbad as [H1 | H2].
  - now rewrite (decode_kind_None _ H1).
  - rewrite (decode_kind_None _ H2). now destruct (decode_kind (kind str1)).
Qed.

(** X7. Every bytes or text object, whatever its storage kind and size,
    converts to a string that [visit] accepts: it has no release callback,
    a length within [size_t], and the tag of one of the 8-, 16- and 32-bit
    element types, never the 64-bit one; a text whose kind is neither the
    one-byte nor the two-byte kind is taken as 32-bit. *)
Theorem convert_string_dispatchable (py : PyObject) :
  py <> PyOther ->
  exists s ty,
    convert_string py = ret s /\
    dtor s = 0 /\ context s = 0 /\ data s = buffer_of py /\
    0 <= length s < 2 ^ 64 /\
    kind s = tag_of ty /\ ty <> uint64_t /\ kind s <> RF_UINT64 /\
    (forall k p n,
       py = PyUnicode k p n ->
       k <> PyUnicode_1BYTE_KIND -> k <> PyUnicode_2BYTE_KIND ->
       ty = uint32_t) /\
    (forall R Args (f : typed_ptr -> typed_ptr -> Args -> M R) (args : Args),
       visit s f args =
       f (mkPtr ty (data s)) (ptr_add (mkPtr ty (data s)) (length s)) args).
Proof.
  intros Hpy.
  destruct tags_distinct as (H1 & H2 & H3 & H4 & H5 & H6).
  assert (forall n, 0 <= to_size_t n < 2 ^ 64) as Hsize.
  { intros n. unfold to_size_t. apply Z.mod_pos_bound. lia. }
  destruct py as [p n | k p n |]; [| |congruence]; unfold convert_string;
    cbn [PyBytes_Check PyUnicode_Check PyBytes_AS_STRING PyBytes_GET_SIZE
         PyUnicode_KIND PyUnicode_DATA PyUnicode_GET_LENGTH].
  - eexists _, uint8_t. split; [reflexivity|]. cbn.
    repeat (split; auto); try congruence.
    intros R Args f args. now rewrite (visit_recognized _ uint8_t) by reflexivity.
  - destruct (Z.eqb_spec k PyUnicode_1BYTE_KIND) as [E1|E1];
      [|destruct (Z.eqb_spec k PyUnicode_2BYTE_KIND) as [E2|E2]].
    + eexists _, uint8_t. split; [reflexivity|]. cbn.
      repeat (split; auto); try congruence.
      intros R Args f args. now rewrite (visit_recognized _ uint8_t) by reflexivity.
    + eexists _, uint16_t. split; [reflexivity|]. cbn.
      repeat (split; auto); try congruence.
      intros R Args f args. now rewrite (visit_recognized _ uint16_t) by reflexivity.
    + eexists _, uint32_t. split; [reflexivity|]. cbn.
      repeat (split; auto); try congruence.
      intros R Args f args. now rewrite (visit_recognized _ uint32_t) by reflexivity.
Qed.

(** ** Wrappers, again *)

Lemma constructed_destroyed (this : Z) (x : RF_StringWrapper) (w : World) :
  wrappers w !! this = None ->
  (construct this x ;; RF_StringWrapper_destroy this) w =
  (Ret tt, log_all (release_events x) w).
Proof.
  intros Hthis.
  rewrite (bind_Ret _ _ w (set_wrappers (<[this := x]> (wrappers w)) w) tt)
    by (unfold construct; now rewrite Hthis).
  rewrite destroy_run. cbn [wrappers set_wrappers].
  rewrite lookup_insert_eq, delete_insert_eq, delete_id by assumption.
  reflexivity.
Qed.

Lemma convert_string_borrows (py : PyObject) :
  py <> PyOther -> exists s, convert_string py = ret s /\ dtor s = 0.
Proof.
  intros Hpy. destruct py as [p n | k p n |]; [| |congruence];
    unfold convert_string; cbn [PyBytes_Check PyUnicode_Check];
    eexists; (split; [reflexivity|]); reflexivity.
Qed.

(** X8. [swap] does not depend on the order of its arguments, makes no
    call, and on two live wrappers it undoes itself: two swaps leave the
    world as it was. *)
Theorem swap_symmetric_involutive (a b : Z) (w : World) :
  swap a b w = swap b a w /\
  trace (snd (swap a b w)) = trace w /\
  (is_Some (wrappers w !! a) -> is_Some (wrappers w !! b) ->
   (swap a b ;; swap a b) w = (Ret tt, w)).
Proof.
  split; [|split].
  - rewrite !swap_run.
    destruct (wrappers w !! a) as [x|] eqn:Ha,
             (wrappers w !! b) as [y|] eqn:Hb; try reflexivity.
    same_wrappers.
  - rewrite swap_run.
    now destruct (wrappers w !! a) as [x|], (wrappers w !! b) as [y|].
  - intros [x Ha] [y Hb].
    rewrite (bind_Ret _ _ w
               (set_wrappers (<[b := x]> (<[a := y]> (wrappers w))) w) tt)
      by (now rewrite swap_run, Ha, Hb).
    rewrite swap_run. cbn [wrappers set_wrappers].
    rewrite lookup_insert_eq.
    destruct (decide (a = b)) as [->|Hne].
    + rewrite lookup_insert_eq.
      destruct w; cbn [wrappers] in Ha, Hb; same_wrappers.
    + rewrite lookup_insert_ne, lookup_insert_eq by congruence.
      destruct w; cbn [wrappers] in Ha, Hb; same_wrappers.
Qed.

(** X9. Moving a wrapper out into a new one, assigning it back and
    destroying the new one makes no call and leaves the world as it was:
    what the wrapper held is neither released nor lost on the way. *)
Theorem move_round_trip (this other : Z) (x : RF_StringWrapper) (w : World) :
  wrappers w !! this = None -> wrappers w !! other = Some x ->
  (RF_StringWrapper_move this other ;;
   move_assign other this ;;
   RF_StringWrapper_destroy this) w = (Ret tt, w).
Proof.
  intros Hthis Hother.
  assert (this <> other) as Hne by congruence.
  rewrite (bind_Ret _ _ w
             (set_wrappers
                (<[other := null_wrapper]> (<[this := x]> (wrappers w))) w) tt).
  2:{ rewrite move_run, Hthis. now rewrite lookup_insert_ne, Hother. }
  rewrite (bind_Ret _ _ _
             (set_wrappers (<[this := null_wrapper]> (wrappers w)) w) tt).
  2:{ rewrite move_assign_run. cbn [wrappers set_wrappers].
      rewrite decide_False by assumption.
      rewrite lookup_insert_eq, lookup_insert_ne, lookup_insert_eq
        by congruence.
      change (release_events null_wrapper) with (@nil Event).
      rewrite log_all_nil.
      destruct w; cbn [wrappers] in Hthis, Hother; same_wrappers. }
  rewrite destroy_run. cbn [wrappers set_wrappers].
  rewrite lookup_insert_eq, delete_insert_eq, delete_id by assumption.
  change (release_events null_wrapper) with (@nil Event).
  rewrite log_all_nil. now destruct w.
Qed.

(** X10. A default-constructed wrapper that is destroyed makes no call and
    leaves the world as it was.  A wrapper made from a string alone and
    destroyed calls the release callback of the string once, when the
    string has one, and touches no owner.  Making a wrapper from a string
    and a null owner is making it from the string alone. *)
Theorem unowned_wrapper_destroyed (this : Z) (w : World) :
  wrappers w !! this = None ->
  (RF_StringWrapper_default this ;; RF_StringWrapper_destroy this) w =
    (Ret tt, w) /\
  (forall s,
     (RF_StringWrapper_borrowed this s ;; RF_StringWrapper_destroy this) w =
       (Ret tt, log_all (if dtor s =? 0 then [] else [EvDtor (dtor s) s]) w)) /\
  (forall s,
     RF_StringWrapper_owned this s 0 w = RF_StringWrapper_borrowed this s w).
Proof.
  intros Hthis. split; [|split].
  - unfold RF_StringWrapper_default.
    rewrite constructed_destroyed by assumption. cbn.
    now rewrite log_all_nil.
  - intros s. unfold RF_StringWrapper_borrowed.
    rewrite constructed_destroyed by assumption.
    unfold release_events. cbn. now rewrite app_nil_r.
  - intros s. unfold RF_StringWrapper_owned, RF_StringWrapper_borrowed.
    unfold bind, construct. now rewrite Hthis.
Qed.

(** X11. A string converted from a bytes or text object is borrowed: the
    wrapper made from it and destroyed makes no call and leaves the world
    as it was, so the buffer of the host object is never released by the
    wrapper. *)
Theorem converted_string_is_borrowed (py : PyObject) (this : Z) (w : World) :
  py <> PyOther -> wrappers w !! this = None ->
  (s <- convert_string py ;;
   RF_StringWrapper_borrowed this s ;;
   RF_StringWrapper_destroy this) w = (Ret tt, w).
Proof.
  intros Hpy Hthis.
  destruct (convert_string_borrows py Hpy) as (s & Hs & Hdtor).
  rewrite Hs. rewrite (bind_Ret _ _ w w s) by reflexivity.
  unfold RF_StringWrapper_borrowed.
  rewrite constructed_destroyed by assumption.
  unfold release_events. cbn. rewrite Hdtor. cbn.
  now rewrite log_all_nil.
Qed.

(** ** The scorer context, from construction to destruction *)

Lemma fresh_addr_free (h : gmap Z Obj) :
  fresh_addr h <> 0 /\ h !! fresh_addr h = None.
Proof.
  unfold fresh_addr.
  pose proof (is_fresh (dom h ∪ {[0]})) as Hfresh.
  rewrite elem_of_union, elem_of_singleton, elem_of_dom in Hfresh.
  split.
  - intros E. apply Hfresh. now right.
  - apply eq_None_not_Some. intros Hsome. apply Hfresh. now left.
Qed.

(** The context [get_ScorerContext_f64] makes for a scorer at [p]. *)
Lemma get_ScorerContext_f64_run (first last : typed_ptr) (args : CtorArgs)
    (w : World) :
  get_ScorerContext_f64 first (last, args) w =
  match new_obj (CachedScorer_ctor first last args) w with
  | (Ret p, w1) =>
      (Ret (mkScorerFunc p (Some (fn_scorer_func_wrapper_f64 (elem first)))
              (Some (fn_scorer_deinit (elem first)))), w1)
  | (Throw e, w1) => (Throw e, w1)
  | (Crash c, w1) => (Crash c, w1)
  end.
Proof.
  unfold get_ScorerContext_f64, bind. cbn [fst snd].
  now destruct (new_obj (CachedScorer_ctor first last args) w) as [[p|e|c] w1].
Qed.

(** [scorer_init_f64] on one string. *)
Lemma scorer_init_f64_one (self : RF_ScorerFunc) (str : RF_String)
    (rest : list RF_String) (args : CtorArgs) (w : World) :
  scorer_init_f64 self 1 (str :: rest) args w =
  match decode_kind (kind str) with
  | None =>
      (Ret (false, self),
       reported (StdExn logic_error "Invalid string type") w)
  | Some ty =>
      match new_obj
              (CachedScorer_ctor (range_first ty str) (range_last ty str) args)
              w with
      | (Ret p, w1) =>
          (Ret (true,
                mkScorerFunc p (Some (fn_scorer_func_wrapper_f64 ty))
                  (Some (fn_scorer_deinit ty))), w1)
      | (Throw e, w1) => (Ret (false, self), reported e w1)
      | (Crash c, w1) => (Crash c, w1)
      end
  end.
Proof.
  unfold scorer_init_f64. rewrite try_report.
  rewrite bool_decide_eq_false_2 by tauto.
  rewrite (bind_Ret _ _ w w tt) by reflexivity.
  cbn [deref_first]. rewrite (bind_Ret _ _ w w str) by reflexivity.
  unfold bind at 1. rewrite visit_decode.
  destruct (decode_kind (kind str)) as [ty|]; [|reflexivity].
  rewrite get_ScorerContext_f64_run. cbn [elem range_first].
  now destruct (new_obj _ w) as [[p|e|c] w1].
Qed.

Lemma new_obj_built (ctor : M Obj) (n : nat) (o : Obj) (w wc : World) :
  free_store w = S n -> ctor (set_heap (heap w) n w) = (Ret o, wc) ->
  new_obj ctor w =
  (Ret (fresh_addr (heap wc)),
   set_heap (<[fresh_addr (heap wc) := o]> (heap wc)) (free_store wc) wc).
Proof. intros Hfree Hctor. unfold new_obj. now rewrite Hfree, Hctor. Qed.

(** X12. With one string of a recognized tag, room on the free store and a
    constructor that returns, [scorer_init_f64] returns [true] and a
    context for the element type of the tag, whose pointer is not null,
    was not in use and now holds the constructed scorer; the other objects
    of the free store are as the constructor left them, and neither the
    lock nor the host's error is touched. *)
Theorem scorer_init_f64_builds (self : RF_ScorerFunc) (str : RF_String)
    (rest : list RF_String) (args : CtorArgs) (ty : elem_type) (n : nat)
    (o : Obj) (w wc : World) :
  kind str = tag_of ty ->
  free_store w = S n ->
  CachedScorer_ctor (mkPtr ty (data str))
    (ptr_add (mkPtr ty (data str)) (length str)) args
    (set_heap (heap w) n w) = (Ret o, wc) ->
  exists p w1,
    scorer_init_f64 self 1 (str :: rest) args w =
      (Ret (true,
            mkScorerFunc p (Some (fn_scorer_func_wrapper_f64 ty))
              (Some (fn_scorer_deinit ty))), w1) /\
    p <> 0 /\ heap wc !! p = None /\ heap w1 !! p = Some o /\
    (forall q, q <> p -> heap w1 !! q = heap wc !! q) /\
    py_err w1 = py_err wc /\ trace w1 = trace wc /\
    free_store w1 = free_store wc.
Proof.
  intros Hkind Hfree Hctor.
  destruct (fresh_addr_free (heap wc)) as [Hnull Hnew].
  exists (fresh_addr (heap wc)),
         (set_heap (<[fresh_addr (heap wc) := o]> (heap wc)) (free_store wc) wc).
  rewrite scorer_init_f64_one, Hkind, decode_kind_tag.
  unfold range_last, range_first.
  rewrite (new_obj_built
             (CachedScorer_ctor (mkPtr ty (data str))
                (ptr_add (mkPtr ty (data str)) (length str)) args)
             n o w wc Hfree Hctor).
  cbn [heap set_heap py_err trace free_store].
  rewrite lookup_insert_eq.
  repeat (split; [assumption || reflexivity|]).
  split; [|repeat split].
  intros q Hq. now rewrite lookup_insert_ne by congruence.
Qed.

Lemma new_obj_Ret (ctor : M Obj) (p : Z) (w w1 : World) :
  new_obj ctor w = (Ret p, w1) -> p <> 0 /\ is_Some (heap w1 !! p).
Proof.
  unfold new_obj. destruct (free_store w) as [|n]; [discriminate|].
  destruct (ctor (set_heap (heap w) n w)) as [[o|e|c] wc]; try discriminate.
  intros [= <- <-]. split; [apply fresh_addr_free|].
  cbn [heap set_heap]. rewrite lookup_insert_eq. now exists o.
Qed.

(** X13. No exception leaves [scorer_init_f64]; where it returns [false],
    [*self] is as it was; where it returns [true], the count was 1, the
    first string has a recognized tag, and [*self] is a context for the
    element type of that tag whose pointer is not null and holds a scorer.
    With a count other than 1 it never stops the program. *)
Theorem scorer_init_f64_frontier (self : RF_ScorerFunc) (str_count : Z)
    (strings : list RF_String) (args : CtorArgs) (w : World) :
  match scorer_init_f64 self str_count strings args w with
  | (Ret (true, context), w') =>
      str_count = 1 /\
      scorer_context context <> 0 /\
      is_Some (heap w' !! scorer_context context) /\
      exists str rest ty,
        strings = str :: rest /\ kind str = tag_of ty /\
        scorer_call_f64 context = Some (fn_scorer_func_wrapper_f64 ty) /\
        scorer_dtor context = Some (fn_scorer_deinit ty)
  | (Ret (false, context), _) => context = self
  | (Throw _, _) => False
  | (Crash _, _) => str_count = 1
  end.
Proof.
  destruct (decide (str_count = 1)) as [->|Hcount].
  2:{ now rewrite scorer_init_f64_count. }
  destruct strings as [|str rest].
  { unfold scorer_init_f64. rewrite try_report. reflexivity. }
  rewrite scorer_init_f64_one.
  destruct (decode_kind (kind str)) as [ty|] eqn:Hty; [|reflexivity].
  destruct (new_obj _ w) as [[p|e|c] w1] eqn:Hnew; try reflexivity.
  destruct (new_obj_Ret _ p w w1 Hnew) as [Hnull Hlive].
  cbn [scorer_context scorer_call_f64 scorer_dtor].
  repeat (split; [assumption || reflexivity|]).
  exists str, rest, ty. split; [reflexivity|]. split; [|tauto].
  now apply decode_kind_Some.
Qed.

(** X14. A construction that fails leaves nothing on the free store.  With
    one string of a recognized tag: when the free store is exhausted,
    [scorer_init_f64] returns [false] with [*self] as it was and reports
    [std::bad_alloc], with the free store untouched; when the constructor
    of the scorer throws, it returns [false] with [*self] as it was and
    reports that exception, and the storage taken for the scorer is back
    on the free store. *)
Theorem scorer_init_f64_failed_construction (self : RF_ScorerFunc)
    (str : RF_String) (rest : list RF_String) (args : CtorArgs)
    (ty : elem_type) (w : World) :
  kind str = tag_of ty ->
  (free_store w = 0%nat ->
   scorer_init_f64 self 1 (str :: rest) args w =
     (Ret (false, self), reported (StdExn bad_alloc "std::bad_alloc") w) /\
   heap (reported (StdExn bad_alloc "std::bad_alloc") w) = heap w /\
   py_err (reported (StdExn bad_alloc "std::bad_alloc") w) =
     Some (match py_err w with
           | Some err => err
           | None => (PyExc_MemoryError, "std::bad_alloc")
           end)) /\
  (forall n e wc,
     free_store w = S n ->
     CachedScorer_ctor (mkPtr ty (data str))
       (ptr_add (mkPtr ty (data str)) (length str)) args
       (set_heap (heap w) n w) = (Throw e, wc) ->
     scorer_init_f64 self 1 (str :: rest) args w =
       (Ret (false, self),
        reported e (set_heap (heap wc) (S (free_store wc)) wc)) /\
     heap (reported e (set_heap (heap wc) (S (free_store wc)) wc)) =
       heap wc /\
     free_store (reported e (set_heap (heap wc) (S (free_store wc)) wc)) =
       S (free_store wc)).
Proof.
  intros Hkind. split.
  - intros Hfree. rewrite scorer_init_f64_one, Hkind, decode_kind_tag.
    unfold new_obj. rewrite Hfree. split; [reflexivity|].
    pose proof (reported_spec (StdExn bad_alloc "std::bad_alloc") w)
      as (Herr & _ & _ & Hheap & _).
    split; [exact Hheap | exact Herr].
  - intros n e wc Hfree Hctor.
    rewrite scorer_init_f64_one, Hkind, decode_kind_tag.
    unfold new_obj, range_last, range_first. rewrite Hfree, Hctor.
    split; [reflexivity|].
    pose proof (reported_spec e (set_heap (heap wc) (S (free_store wc)) wc))
      as (_ & _ & _ & Hheap & Hfs & _).
    split; [exact Hheap | exact Hfs].
Qed.

(** X15. A context that was built and is destroyed leaves the free store as
    the constructor of the scorer left it, with the storage of the scorer
    given back; when the constructor has no effect of its own, the world is
    as before the construction.  Destroying the context a second time is a
    double [delete]. *)
Theorem scorer_built_then_destroyed (self : RF_ScorerFunc) (str : RF_String)
    (rest : list RF_String) (args : CtorArgs) (ty : elem_type) (n : nat)
    (o : Obj) (w wc : World) :
  kind str = tag_of ty ->
  free_store w = S n ->
  CachedScorer_ctor (mkPtr ty (data str))
    (ptr_add (mkPtr ty (data str)) (length str)) args
    (set_heap (heap w) n w) = (Ret o, wc) ->
  (r <- scorer_init_f64 self 1 (str :: rest) args ;;
   scorer_deinit (snd r)) w =
    (Ret tt, set_heap (heap wc) (S (free_store wc)) wc) /\
  (wc = set_heap (heap w) n w ->
   set_heap (heap wc) (S (free_store wc)) wc = w) /\
  (r <- scorer_init_f64 self 1 (str :: rest) args ;;
   scorer_deinit (snd r) ;;
   scorer_deinit (snd r)) w =
    (Crash undefined_behaviour, set_heap (heap wc) (S (free_store wc)) wc).
Proof.
  intros Hkind Hfree Hctor.
  destruct (fresh_addr_free (heap wc)) as [Hnull Hnew].
  assert (scorer_init_f64 self 1 (str :: rest) args w =
          (Ret (true,
                mkScorerFunc (fresh_addr (heap wc))
                  (Some (fn_scorer_func_wrapper_f64 ty))
                  (Some (fn_scorer_deinit ty))),
           set_heap (<[fresh_addr (heap wc) := o]> (heap wc))
             (free_store wc) wc)) as Hinit.
  { rewrite scorer_init_f64_one, Hkind, decode_kind_tag.
    unfold range_last, range_first.
    now rewrite (new_obj_built
                   (CachedScorer_ctor (mkPtr ty (data str))
                      (ptr_add (mkPtr ty (data str)) (length str)) args)
                   n o w wc Hfree Hctor). }
  assert (scorer_deinit
            (mkScorerFunc (fresh_addr (heap wc))
               (Some (fn_scorer_func_wrapper_f64 ty))
               (Some (fn_scorer_deinit ty)))
            (set_heap (<[fresh_addr (heap wc) := o]> (heap wc))
               (free_store wc) wc) =
          (Ret tt, set_heap (heap wc) (S (free_store wc)) wc)) as Hdeinit.
  { unfold scorer_deinit, delete_obj. cbn [scorer_context heap set_heap].
    destruct (Z.eqb_spec (fresh_addr (heap wc)) 0); [contradiction|].
    rewrite lookup_insert_eq, delete_insert_eq, delete_id by assumption.
    reflexivity. }
  split; [|split].
  - rewrite (bind_Ret _ _ _ _ _ Hinit). exact Hdeinit.
  - intros ->. destruct w; cbn in *. now subst.
  - rewrite (bind_Ret _ _ _ _ _ Hinit). cbn [snd].
    rewrite (bind_Ret _ _ _ _ _ Hdeinit).
    unfold scorer_deinit, delete_obj. cbn [scorer_context heap set_heap].
    destruct (Z.eqb_spec (fresh_addr (heap wc)) 0); [contradiction|].
    now rewrite Hnew.
Qed.

(** X16. A context that was built scores against the scorer that was
    constructed for it: on a query of a recognized tag,
    [scorer_func_wrapper_f64] is the [ratio] of that scorer on the range of
    the query, with [true] and the score when it returns, and [false] and
    the report of the exception when it throws. *)
Theorem scorer_built_then_used (self : RF_ScorerFunc) (str query : RF_String)
    (rest : list RF_String) (args : CtorArgs) (ty ty2 : elem_type) (n : nat)
    (o : Obj) (score_cutoff result : float) (w wc : World) :
  kind str = tag_of ty ->
  free_store w = S n ->
  CachedScorer_ctor (mkPtr ty (data str))
    (ptr_add (mkPtr ty (data str)) (length str)) args
    (set_heap (heap w) n w) = (Ret o, wc) ->
  kind query = tag_of ty2 ->
  (r <- scorer_init_f64 self 1 (str :: rest) args ;;
   scorer_func_wrapper_f64 (snd r) query score_cutoff result) w =
  match CachedScorer_ratio o (mkPtr ty2 (data query))
          (ptr_add (mkPtr ty2 (data query)) (length query)) score_cutoff
          (set_heap (<[fresh_addr (heap wc) := o]> (heap wc))
             (free_store wc) wc) with
  | (Ret score, w2) => (Ret (true, score), w2)
  | (Throw e, w2) => (Ret (false, result), reported e w2)
  | (Crash c, w2) => (Crash c, w2)
  end.
Proof.
  intros Hkind Hfree Hctor Hquery.
  rewrite (bind_Ret _ _ w
             (set_heap (<[fresh_addr (heap wc) := o]> (heap wc))
                (free_store wc) wc)
             (true,
              mkScorerFunc (fresh_addr (heap wc))
                (Some (fn_scorer_func_wrapper_f64 ty))
                (Some (fn_scorer_deinit ty)))).
  2:{ rewrite scorer_init_f64_one, Hkind, decode_kind_tag.
      unfold range_last, range_first.
      now rewrite (new_obj_built
                     (CachedScorer_ctor (mkPtr ty (data str))
                        (ptr_add (mkPtr ty (data str)) (length str)) args)
                     n o w wc Hfree Hctor). }
  cbn [snd].
  rewrite (scorer_func_wrapper_f64_run _ _ _ _ o)
    by (cbn [scorer_context heap set_heap]; apply lookup_insert_eq).
  unfold scoring. now rewrite (visit_recognized query ty2).
Qed.

End Boundary.

(** * Worked instances *)

(** A host with nothing going on, a host where [e] is being handled, and
    the same with an error pending. *)
Local Abbreviation idle_world := (@mkWorld unit None [] [] ∅ 0%nat ∅).

Local Abbreviation handling e := (@mkWorld unit None [e] [] ∅ 0%nat ∅).

Local Abbreviation failing err e :=
  (@mkWorld unit (Some err) [e] [] ∅ 0%nat ∅).

(** A host with one scorer on the free store, at address 8. *)
Local Abbreviation scoring_world :=
  (@mkWorld unit None [] [] {[ 8 := tt ]} 0%nat ∅).

(** A host with one wrapper, at address 16; it holds a string with the
    release callback at 77 and the owner at 55. *)
Local Abbreviation owned_string := (mkRF_String 77 0 4096 3 0).

Local Abbreviation wrapper_world :=
  (@mkWorld unit None [] [] ∅ 0%nat {[ 16 := mkWrapper owned_string 55 ]}).

(** Callbacks that return the addresses they are called on. *)
Local Abbreviation probe :=
  (fun (first last : typed_ptr) (_ : unit) =>
     @ret unit (Z * Z) (addr first, addr last)).

Local Abbreviation probe2 :=
  (fun (first1 last1 : typed_ptr) (rest : typed_ptr * typed_ptr * unit) =>
     @ret unit (Z * Z * Z * Z)
       (addr first1, addr last1, addr (fst (fst rest)), addr (snd (fst rest)))).

(** The enumerators as a C compiler numbers them. *)
Lemma sample_tags_distinct : NoDup [0; 1; 2; 3].
Proof. apply (bool_decide_unpack (NoDup [0; 1; 2; 3])). exact I. Qed.

Lemma sole_holder_singleton (s : RF_String) (this o : Z) :
  sole_holder s this {[ this := mkWrapper s o ]}.
Proof.
  split.
  - exists (mkWrapper s o). now rewrite lookup_singleton_eq.
  - intros l x Hl _. apply lookup_singleton_Some in Hl. now destruct Hl.
Qed.

(** C1 on three 16-bit elements at address 4096, and on a tag that is no
    enumerator. *)
Lemma visit_dispatches_witness :
  visit 0 1 2 3 (mkRF_String 0 1 4096 3 0) probe tt idle_world =
    (Ret (4096, 4102), idle_world) /\
  visit 0 1 2 3 (mkRF_String 0 9 4096 3 0) probe tt idle_world =
    (Throw (StdExn logic_error "Invalid string type"), idle_world).
Proof.
  split.
  - rewrite (proj1 (proj1 (visit_dispatches 0 1 2 3 sample_tags_distinct
                             (mkRF_String 0 1 4096 3 0) probe tt)
                      uint16_t eq_refl)).
    reflexivity.
  - apply (proj2 (visit_dispatches 0 1 2 3 sample_tags_distinct
                    (mkRF_String 0 9 4096 3 0) probe tt)).
    intros ty; destruct ty; discriminate.
Defined.

(** C2 on a pending [ValueError] while an out-of-range exception is
    handled. *)
Lemma pending_error_kept_witness :
  CppExn2PyErr (failing (PyExc_ValueError, "first") (StdExn out_of_range "second")) =
  (Ret tt, failing (PyExc_ValueError, "first") (StdExn out_of_range "second")).
Proof.
  exact (proj1 (pending_error_kept
                  (failing (PyExc_ValueError, "first")
                     (StdExn out_of_range "second")))
           (PyExc_ValueError, "first") eq_refl).
Defined.

(** C3, amended, on an out-of-range exception. *)
Lemma bridge_classifies_witness :
  exists ty msg,
    CppExn2PyErr (handling (StdExn out_of_range "index 7")) =
      (Ret tt,
       set_py_err (Some (ty, msg)) (handling (StdExn out_of_range "index 7"))) /\
    (ty, msg) = (PyExc_IndexError, "index 7") /\
    category_of_type ty = index_out_of_range /\ msg = "index 7".
Proof.
  exact (bridge_classifies (handling (StdExn out_of_range "index 7"))
           (StdExn out_of_range "index 7") [] eq_refl eq_refl).
Defined.

(** C3 as it is stated fails: a foreign exception and a
    [std::runtime_error] whose message is "Unknown exception" leave the host
    with the same error, and the specification puts the first in its
    unknown category and the second in its generic runtime category; no
    reading of the host's errors as categories agrees with both. *)
Lemma spec_mapping_counterexample :
  ~ exists category_of, @follows_spec_mapping unit category_of.
Proof.
  intros [category_of H].
  destruct (H (Foreign 0) [] (handling (Foreign 0)) eq_refl eq_refl)
    as (err1 & Hrun1 & Hcat1).
  destruct (H (StdExn runtime_error "Unknown exception") []
              (handling (StdExn runtime_error "Unknown exception"))
              eq_refl eq_refl)
    as (err2 & Hrun2 & Hcat2).
  rewrite (CppExn2PyErr_installs (handling (Foreign 0)) _ [] eq_refl eq_refl)
    in Hrun1.
  rewrite (CppExn2PyErr_installs
             (handling (StdExn runtime_error "Unknown exception")) _ []
             eq_refl eq_refl) in Hrun2.
  apply (f_equal (fun r => py_err (snd r))) in Hrun1, Hrun2.
  cbn in Hrun1, Hrun2, Hcat1, Hcat2.
  congruence.
Qed.

(** C4 on a count of two. *)
Lemma scorer_init_f64_rejects_count_witness :
  exists w',
    scorer_init_f64 0 1 2 3 (fun _ _ (_ : unit) => ret tt)
      (mkScorerFunc 0 None None) 2
      [mkRF_String 0 0 4096 3 0; mkRF_String 0 0 8192 3 0] tt idle_world =
      (Ret (false, mkScorerFunc 0 None None), w') /\
    heap w' = ∅ /\
    free_store w' = 0%nat /\
    py_err w' = Some (PyExc_RuntimeError, "Only str_count == 1 supported") /\
    trace w' = [EvGILEnsure; EvGILRelease] /\
    handled w' = [] /\
    wrappers w' = ∅.
Proof.
  apply (scorer_init_f64_rejects_count 0 1 2 3 (fun _ _ (_ : unit) => ret tt)
           (mkScorerFunc 0 None None) 2
           [mkRF_String 0 0 4096 3 0; mkRF_String 0 0 8192 3 0] tt idle_world).
  discriminate.
Defined.

(** C5 on a scorer that returns one half, and on a string whose tag is no
    enumerator. *)
Lemma scorer_func_wrapper_f64_catches_witness :
  scorer_func_wrapper_f64 0 1 2 3 (fun _ _ _ _ => ret 0.5%float)
    (mkScorerFunc 8 None None) (mkRF_String 0 0 4096 3 0) 0%float 7%float
    scoring_world = (Ret (true, 0.5%float), scoring_world) /\
  scorer_func_wrapper_f64 0 1 2 3 (fun _ _ _ _ => ret 0.5%float)
    (mkScorerFunc 8 None None) (mkRF_String 0 9 4096 3 0) 0%float 7%float
    scoring_world =
    (Ret (false, 7%float),
     reported (StdExn logic_error "Invalid string type") scoring_world).
Proof.
  split.
  - refine (proj1 (scorer_func_wrapper_f64_catches 0 1 2 3 sample_tags_distinct
                     (fun _ _ _ _ => ret 0.5%float) (mkScorerFunc 8 None None)
                     (mkRF_String 0 0 4096 3 0) 0%float 7%float tt
                     scoring_world _) 0.5%float scoring_world _);
      reflexivity.
  - refine (proj2 (proj2 (proj2 (proj2
              (scorer_func_wrapper_f64_catches 0 1 2 3 sample_tags_distinct
                 (fun _ _ _ _ => ret 0.5%float) (mkScorerFunc 8 None None)
                 (mkRF_String 0 9 4096 3 0) 0%float 7%float tt
                 scoring_world _)))) _).
    + reflexivity.
    + intros ty; destruct ty; discriminate.
Defined.

(** C6 on a 16-bit string and a 32-bit string. *)
Lemma visitor_composes_witness :
  visitor 0 1 2 3 (mkRF_String 0 1 4096 3 0) (mkRF_String 0 2 8192 5 0)
    probe2 tt idle_world =
  (Ret (4096, 4102, 8192, 8212), idle_world).
Proof.
  rewrite (proj2 (proj2 (visitor_composes 0 1 2 3 sample_tags_distinct
                           (mkRF_String 0 1 4096 3 0)
                           (mkRF_String 0 2 8192 5 0) probe2 tt))
             uint16_t uint32_t eq_refl eq_refl).
  reflexivity.
Defined.

(** C7 on the wrapper at 16: its destruction, and its life through a move
    to address 32 and the destruction of both wrappers. *)
Lemma wrapper_releases_once_witness :
  RF_StringWrapper_destroy 16 wrapper_world =
    (Ret tt,
     set_wrappers (delete 16 (wrappers wrapper_world))
       (log_all [EvDtor 77 owned_string; EvDecref 55] wrapper_world)) /\
  (releases owned_string
     (trace (snd (run_ops [op_move 32 16; op_destroy 16; op_destroy 32]
                    wrapper_world))) <= 1)%nat.
Proof.
  split.
  - apply (proj1 (@wrapper_releases_once unit) 16
             (mkWrapper owned_string 55) wrapper_world).
    + reflexivity.
    + discriminate.
    + discriminate.
  - apply (proj2 (proj2 (proj2 (proj2 (@wrapper_releases_once unit))))
             owned_string 16
             [op_move 32 16; op_destroy 16; op_destroy 32] wrapper_world).
    + discriminate.
    + apply sole_holder_singleton.
Defined.



(** C9, amended, on the idle host. *)
Lemma bridge_without_exception_terminates_witness :
  CppExn2PyErr idle_world = (Crash std_terminate, idle_world) /\
  py_err (snd (CppExn2PyErr idle_world)) = None.
Proof.
  exact (bridge_without_exception_terminates idle_world eq_refl eq_refl).
Defined.

(** C9 as it is stated fails: on the idle host the bridge does not return
    with an error installed. *)
Lemma idle_bridge_counterexample :
  ~ exists w' err,
      CppExn2PyErr idle_world = (Ret tt, w') /\ py_err w' = Some err.
Proof.
  intros (w' & err & Hrun & _).
  rewrite (CppExn2PyErr_idle idle_world eq_refl eq_refl) in Hrun.
  discriminate Hrun.
Qed.

(** * Worked instances of the further properties *)

(** A host whose free store can serve one allocation, a constructor and a
    [ratio] without effects, a context that was never built, and a host
    that fails to make text ready and sets its error. *)
Local Abbreviation roomy_world := (@mkWorld unit None [] [] ∅ 1%nat ∅).

Local Abbreviation plain_ctor :=
  (fun (_ _ : typed_ptr) (_ : unit) => @ret unit unit tt).

Local Abbreviation half_ratio :=
  (fun (_ : unit) (_ _ : typed_ptr) (_ : float) => @ret unit float 0.5%float).

Local Abbreviation throwing_ctor :=
  (fun (_ _ : typed_ptr) (_ : unit) =>
     @throw unit unit (StdExn invalid_argument "empty pattern")).

Local Abbreviation no_context := (mkScorerFunc 0 None None).

Local Abbreviation failing_ready :=
  (fun (_ : PyObject) (w : @World unit) =>
     (Ret (-1), set_py_err (Some (PyExc_MemoryError, "")) w)).

(** X2 on a host of version 3.9 that cannot make the text ready. *)
Lemma unready_text_rejected_witness :
  validate_string (PYTHON_VERSION 3 9 0) failing_ready (PyUnicode 0 4096 3)
    "expected a string" idle_world =
    (Throw (StdExn runtime_error ""),
     set_py_err (Some (PyExc_MemoryError, "")) idle_world).
Proof.
  refine (proj1 (unready_text_rejected (PYTHON_VERSION 3 9 0) failing_ready
                   0 4096 3 (-1) "expected a string" idle_world
                   (set_py_err (Some (PyExc_MemoryError, "")) idle_world)
                   _ _ _)).
  - reflexivity.
  - reflexivity.
  - discriminate.
Defined.

(** X3 on the versions 3.9.18 and 3.10.0. *)
Lemma PYTHON_VERSION_orders_witness :
  PYTHON_VERSION 3 9 18 = 3 * 2 ^ 24 + 9 * 2 ^ 16 + 18 * 2 ^ 8 /\
  0 <= PYTHON_VERSION 3 9 18 < 2 ^ 31 /\
  (PYTHON_VERSION 3 9 18 < PYTHON_VERSION 3 10 0 <->
   3 < 3 \/ (3 = 3 /\ (9 < 10 \/ (9 = 10 /\ 18 < 0)))).
Proof.
  apply (PYTHON_VERSION_orders 3 9 18 3 10 0); lia.
Defined.

(** X4 on an out-of-range exception with no error pending. *)
Lemma bridge_runs_once_witness :
  bind CppExn2PyErr (fun _ => CppExn2PyErr)
    (handling (StdExn out_of_range "index 7")) =
  CppExn2PyErr (handling (StdExn out_of_range "index 7")).
Proof.
  exact (proj1 (bridge_runs_once (handling (StdExn out_of_range "index 7"))
                  (StdExn out_of_range "index 7") [] eq_refl)).
Defined.

(** X5 on the handler of [std::range_error], the ninth, which comes
    before the handler of [std::exception]. *)
Lemma bridge_clauses_not_shadowed_witness :
  clause_matches (catch_class range_error) (StdExn range_error "range") =
    true /\
  Forall
    (fun h' : @handler unit unit =>
       clause_matches (fst h') (StdExn range_error "range") = false)
    (take 8 bridge_handlers) /\
  select_handler (@bridge_handlers unit) (StdExn range_error "range") =
    Some (PyErr_SetString PyExc_ArithmeticError "range").
Proof.
  apply (@bridge_clauses_not_shadowed unit 8 (catch_class range_error)
           (fun exn => PyErr_SetString PyExc_ArithmeticError (what exn))
           (StdExn range_error "range")).
  - reflexivity.
  - now exists "range".
Defined.

(** X6 on a second string whose tag is no enumerator. *)
Lemma visitor_rejects_unrecognized_witness :
  visitor 0 1 2 3 (mkRF_String 0 1 4096 3 0) (mkRF_String 0 9 8192 5 0)
    probe2 tt idle_world =
  (Throw (StdExn logic_error "Invalid string type"), idle_world).
Proof.
  apply (visitor_rejects_unrecognized 0 1 2 3 (mkRF_String 0 1 4096 3 0)
           (mkRF_String 0 9 8192 5 0) probe2 tt idle_world).
  right. intros ty; destruct ty; discriminate.
Defined.

(** X7 on a text object of the legacy kind 0. *)
Lemma convert_string_dispatchable_witness :
  exists s ty,
    @convert_string unit 0 1 2 (PyUnicode 0 4096 3) = ret s /\
    dtor s = 0 /\ context s = 0 /\ data s = 4096 /\
    0 <= length s < 2 ^ 64 /\
    kind s = @tag_of 0 1 2 3 ty /\ ty <> uint64_t /\ kind s <> 3 /\
    (forall k p n,
       PyUnicode 0 4096 3 = PyUnicode k p n ->
       k <> PyUnicode_1BYTE_KIND -> k <> PyUnicode_2BYTE_KIND ->
       ty = uint32_t) /\
    (forall R Args (f : typed_ptr -> typed_ptr -> Args -> @M unit R)
            (args : Args),
       visit 0 1 2 3 s f args =
       f (mkPtr ty (data s)) (ptr_add (mkPtr ty (data s)) (length s)) args).
Proof.
  apply (@convert_string_dispatchable unit 0 1 2 3 sample_tags_distinct
           (PyUnicode 0 4096 3)).
  discriminate.
Defined.

(** X9 on the wrapper at 16, moved to 32 and back. *)
Lemma move_round_trip_witness :
  bind (RF_StringWrapper_move 32 16)
    (fun _ => bind (move_assign 16 32)
                (fun _ => RF_StringWrapper_destroy 32)) wrapper_world =
  (Ret tt, wrapper_world).
Proof.
  refine (move_round_trip 32 16 (mkWrapper owned_string 55) wrapper_world _ _);
    reflexivity.
Defined.

(** X10 on the idle host and the address 16. *)
Lemma unowned_wrapper_destroyed_witness :
  bind (RF_StringWrapper_default 16) (fun _ => RF_StringWrapper_destroy 16)
    idle_world = (Ret tt, idle_world).
Proof.
  refine (proj1 (unowned_wrapper_destroyed 16 idle_world _)). reflexivity.
Defined.

(** X11 on a bytes object of three bytes. *)
Lemma converted_string_is_borrowed_witness :
  bind (convert_string 0 1 2 (PyBytes 4096 3))
    (fun s => bind (RF_StringWrapper_borrowed 16 s)
                (fun _ => RF_StringWrapper_destroy 16)) idle_world =
  (Ret tt, idle_world).
Proof.
  refine (converted_string_is_borrowed 0 1 2 (PyBytes 4096 3) 16 idle_world
            _ _).
  - discriminate.
  - reflexivity.
Defined.

(** X12 on one string of three bytes and a free store with room for one
    scorer. *)
Lemma scorer_init_f64_builds_witness :
  exists p w1,
    scorer_init_f64 0 1 2 3 plain_ctor no_context 1
      [mkRF_String 0 0 4096 3 0] tt roomy_world =
      (Ret (true,
            mkScorerFunc p (Some (fn_scorer_func_wrapper_f64 uint8_t))
              (Some (fn_scorer_deinit uint8_t))), w1) /\
    p <> 0 /\ heap idle_world !! p = None /\ heap w1 !! p = Some tt /\
    (forall q, q <> p -> heap w1 !! q = heap idle_world !! q) /\
    py_err w1 = None /\ trace w1 = [] /\ free_store w1 = 0%nat.
Proof.
  refine (scorer_init_f64_builds 0 1 2 3 sample_tags_distinct plain_ctor
            no_context (mkRF_String 0 0 4096 3 0) [] tt uint8_t 0 tt
            roomy_world idle_world _ _ _);
    reflexivity.
Defined.

(** X14 on an exhausted free store, and on a constructor that throws. *)
Lemma scorer_init_f64_failed_construction_witness :
  scorer_init_f64 0 1 2 3 plain_ctor no_context 1
    [mkRF_String 0 0 4096 3 0] tt idle_world =
    (Ret (false, no_context),
     reported (StdExn bad_alloc "std::bad_alloc") idle_world) /\
  scorer_init_f64 0 1 2 3 throwing_ctor no_context 1
    [mkRF_String 0 0 4096 3 0] tt roomy_world =
    (Ret (false, no_context),
     reported (StdExn invalid_argument "empty pattern") roomy_world).
Proof.
  split.
  - refine (proj1 (proj1 (scorer_init_f64_failed_construction 0 1 2 3
                            sample_tags_distinct plain_ctor no_context
                            (mkRF_String 0 0 4096 3 0) [] tt uint8_t
                            idle_world _) _));
      reflexivity.
  - refine (proj1 (proj2 (scorer_init_f64_failed_construction 0 1 2 3
                            sample_tags_distinct throwing_ctor no_context
                            (mkRF_String 0 0 4096 3 0) [] tt uint8_t
                            roomy_world _)
                     0%nat (StdExn invalid_argument "empty pattern")
                     idle_world _ _));
      reflexivity.
Defined.

(** X15 on the same string: built and destroyed, the world is as before. *)
Lemma scorer_built_then_destroyed_witness :
  bind (scorer_init_f64 0 1 2 3 plain_ctor no_context 1
          [mkRF_String 0 0 4096 3 0] tt)
    (fun r => scorer_deinit (snd r)) roomy_world =
  (Ret tt, roomy_world).
Proof.
  refine (proj1 (scorer_built_then_destroyed 0 1 2 3 sample_tags_distinct
                   plain_ctor no_context (mkRF_String 0 0 4096 3 0) [] tt
                   uint8_t 0 tt roomy_world idle_world _ _ _));
    reflexivity.
Defined.

(** X16 on the same string and a query of five 16-bit elements. *)
Lemma scorer_built_then_used_witness :
  exists w2,
    bind (scorer_init_f64 0 1 2 3 plain_ctor no_context 1
            [mkRF_String 0 0 4096 3 0] tt)
      (fun r =>
         scorer_func_wrapper_f64 0 1 2 3 half_ratio (snd r)
           (mkRF_String 0 1 8192 5 0) 0%float 7%float) roomy_world =
    (Ret (true, 0.5%float), w2).
Proof.
  eexists.
  refine (scorer_built_then_used 0 1 2 3 sample_tags_distinct plain_ctor
            half_ratio no_context (mkRF_String 0 0 4096 3 0)
            (mkRF_String 0 1 8192 5 0) [] tt uint8_t uint16_t 0 tt
            0%float 7%float roomy_world idle_world _ _ _ _);
    reflexivity.
Defined.
